(** * mcp-finance-analyzer: the tool server and the orchestrator host

    A shallow embedding of [src/finance_mcp_server.py] and [src/host.py].

    - Python [str] values are their UTF-8 encodings ([string]).  On ASCII
      text [str.lower], [str.upper] and [str.strip] are written out; on
      other text they are what the interpreter's Unicode tables make them,
      which the model takes as given functions and assumes nothing about.
    - Python dictionaries with string keys are [gmap string _].
    - A Python [float] is the rational it stands for, or an infinity; the
      one float computation of the host, the backoff delay, is written
      out with its [OverflowError].
    - Everything the two processes do to the outside (HTTP requests, the MCP
      session, the LLM API, the terminal) is an oracle over an abstract world:
      a function from the request and the world to an outcome and the next
      world.  Theorems quantify over the oracles, so they hold whatever the
      outside answers.
    - Exceptions are values: a computation yields [Ret a] or [Raise e], and
      [try]/[except] clauses are written out with the class tests they make.
    - What is written to the terminal is left out, except where evaluating
      the printed expression can raise. *)

From Stdlib Require Import ZArith QArith Qabs List Bool Ascii String DecimalString Lia.
From stdpp Require Import gmap strings.
Import ListNotations.

Local Open Scope string_scope.
Local Open Scope list_scope.

(** ** Python values shared by both processes *)

Module Py.

(** The exception classes the two programs distinguish in their [except]
    clauses.  [CTimeout] is [asyncio.TimeoutError], [CRequestException] is
    [requests.exceptions.RequestException]; both, and [CEOFError], derive
    from [Exception].  [CKeyboardInterrupt], [CSystemExit] and
    [CBaseException] (for instance [asyncio.CancelledError]) derive from
    [BaseException] only. *)
Inductive exn_class : Type :=
| CTimeout
| CEOFError
| CRequestException
| CException
| CKeyboardInterrupt
| CSystemExit (code : Z)
| CBaseException.

(** An exception object: its class for [except] matching, [type(e).__name__]
    and [str(e)]. *)
Record exn : Type := mkExn {
  exn_class_of : exn_class;
  exn_name : string;
  exn_msg : string
}.

(** [isinstance(e, Exception)] *)
Definition is_Exception (e : exn) : bool :=
  match exn_class_of e with
  | CTimeout | CEOFError | CRequestException | CException => true
  | CKeyboardInterrupt | CSystemExit _ | CBaseException => false
  end.

(** [isinstance(e, asyncio.TimeoutError)] *)
Definition is_TimeoutError (e : exn) : bool :=
  match exn_class_of e with CTimeout => true | _ => false end.

Definition is_RequestException (e : exn) : bool :=
  match exn_class_of e with CRequestException => true | _ => false end.

Definition is_KeyboardInterrupt (e : exn) : bool :=
  match exn_class_of e with CKeyboardInterrupt => true | _ => false end.

Definition is_EOFError (e : exn) : bool :=
  match exn_class_of e with CEOFError => true | _ => false end.

(** The result of running a piece of Python: a value or a raised exception. *)
Inductive res (A : Type) : Type :=
| Ret (a : A)
| Raise (e : exn).
Arguments Ret {A} a.
Arguments Raise {A} e.

Definition AttributeError (msg : string) : exn := mkExn CException "AttributeError" msg.
Definition IndexError (msg : string) : exn := mkExn CException "IndexError" msg.
Definition TypeError (msg : string) : exn := mkExn CException "TypeError" msg.
Definition OverflowError (msg : string) : exn := mkExn CException "OverflowError" msg.
Definition SystemExit (code : Z) : exn := mkExn (CSystemExit code) "SystemExit" EmptyString.

(** *** Strings *)

Definition is_upper (c : ascii) : bool :=
  let n := nat_of_ascii c in (65 <=? n)%nat && (n <=? 90)%nat.

Definition is_lower (c : ascii) : bool :=
  let n := nat_of_ascii c in (97 <=? n)%nat && (n <=? 122)%nat.

Definition lower_char (c : ascii) : ascii :=
  if is_upper c then ascii_of_nat (nat_of_ascii c + 32) else c.

Definition upper_char (c : ascii) : ascii :=
  if is_lower c then ascii_of_nat (nat_of_ascii c - 32) else c.

Fixpoint map_string (f : ascii -> ascii) (s : string) : string :=
  match s with
  | EmptyString => EmptyString
  | String c s' => String (f c) (map_string f s')
  end.

(** ASCII white space, as [str.isspace] has it. *)
Definition is_space (c : ascii) : bool :=
  let n := nat_of_ascii c in
  ((9 <=? n)%nat && (n <=? 13)%nat) || ((28 <=? n)%nat && (n <=? 32)%nat).

Fixpoint lstrip (s : string) : string :=
  match s with
  | String c s' => if is_space c then lstrip s' else s
  | EmptyString => EmptyString
  end.

Fixpoint rstrip (s : string) : string :=
  match s with
  | String c s' =>
      match rstrip s' with
      | EmptyString => if is_space c then EmptyString else String c EmptyString
      | t => String c t
      end
  | EmptyString => EmptyString
  end.

(** Whether every character of the text is an ASCII character: no byte of
    the encoding is 128 or more. *)
Fixpoint is_ascii (s : string) : bool :=
  match s with
  | EmptyString => true
  | String c s' => (nat_of_ascii c <? 128)%nat && is_ascii s'
  end.

(** [str.lower], [str.upper] and [str.strip] on text that is not ASCII:
    case mappings that depend on the neighbours of a letter or change the
    length of the text, and the white space of Unicode.  They belong to the
    interpreter, not to the two programs. *)
Record Unicode : Type := mkUnicode {
  unicode_lower : string -> string;
  unicode_upper : string -> string;
  unicode_strip : string -> string
}.

(** [s.lower()], [s.upper()] and [s.strip()] *)
Definition lower (U : Unicode) (s : string) : string :=
  if is_ascii s then map_string lower_char s else unicode_lower U s.

Definition upper (U : Unicode) (s : string) : string :=
  if is_ascii s then map_string upper_char s else unicode_upper U s.

Definition strip (U : Unicode) (s : string) : string :=
  if is_ascii s then rstrip (lstrip s) else unicode_strip U s.

(** [needle in hay] on strings: some suffix of [hay] starts with [needle]. *)
Fixpoint contains (needle hay : string) : bool :=
  if String.prefix needle hay then true
  else match hay with
       | EmptyString => false
       | String _ hay' => contains needle hay'
       end.

(** [any(p(x) for x in l)] *)
Definition any {A : Type} (p : A -> bool) (l : list A) : bool := existsb p l.

(** [str(i)] for a non-negative integer *)
Definition str_of_nat (n : nat) : string := NilZero.string_of_uint (Nat.to_uint n).

(** *** Floats

    A Python [float] that is not a NaN: a finite value, given as the
    rational it is, or an infinity. *)
Inductive pyfloat : Type :=
| Finite (q : Q)
| Infinity (negative : bool).

(** The largest finite float, [sys.float_info.max]. *)
Definition float_max : Q := inject_Z (2 ^ 1024 - 2 ^ 971).

(** The float for an exactly computed product of a float by a power of two:
    the product itself, which needs no rounding, or an infinity when it is
    beyond the largest float. *)
Definition to_float (q : Q) : pyfloat :=
  if Qle_bool (Qabs q) float_max then Finite q
  else Infinity (negb (Qle_bool 0 q)).

(** Truth value of an optional string ([None] and [''] are false). *)
Definition truthy_str (o : option string) : bool :=
  match o with
  | None => false
  | Some s => negb (String.eqb s EmptyString)
  end.

End Py.
Import Py.

(** ** The tool server, [src/finance_mcp_server.py] *)

Module Server.

(** The JSON the market-data API returns, as far as the tools look into it:
    an object whose values are strings, objects of strings, or arrays of
    objects of strings. *)
Inductive value : Type :=
| VStr (s : string)
| VDict (d : gmap string string)
| VList (l : list (gmap string string)).

(** Truth value of a JSON value ([''], [{}] and [[]] are false). *)
Definition truthy (v : value) : bool :=
  match v with
  | VStr s => negb (String.eqb s EmptyString)
  | VDict d => negb (bool_decide (d = ∅))
  | VList l => match l with [] => false | _ => true end
  end.

(** The outcome of [requests.get(...)], [raise_for_status()] and [.json()]:
    the decoded object, or the exception one of the three raised. *)
Inductive http_outcome : Type :=
| HttpJson (data : gmap string value)
| HttpRaise (e : exn).

(** One outbound request: the URL and the query parameters. *)
Record request : Type := mkRequest {
  req_url : string;
  req_params : gmap string string
}.

(** The network.  [str_of_container] is [str(v)] for a dictionary or a list,
    which the tools only ever splice into an error text. *)
Record Net : Type := mkNet {
  world : Type;
  requests_get : request -> world -> http_outcome * world;
  str_of_container : value -> string;
  unicode : Unicode
}.

Definition ALPHA_VANTAGE_BASE_URL : string := "https://www.alphavantage.co/query".

(** [str(v)] as an f-string splices it *)
Definition str_of_value (N : Net) (v : value) : string :=
  match v with
  | VStr s => s
  | _ => str_of_container N v
  end.

Section Tools.

Variable N : Net.

(** The module-level [ALPHA_VANTAGE_API_KEY = os.getenv(...)]. *)
Variable ALPHA_VANTAGE_API_KEY : option string.

(** The body of [make_api_request]: the returned object, the next world,
    and the outbound requests made, in order. *)
Definition make_api_request_body (function : string) (kwargs : gmap string string)
    (w : world N) : res (gmap string value) * world N * list request :=
  match ALPHA_VANTAGE_API_KEY with
  | Some key =>
      if String.eqb key EmptyString then
        (Ret {[ "error" := VStr "Alpha Vantage API key not configured" ]}, w, [])
      else
        let params : gmap string string :=
          kwargs ∪ {[ "function" := function; "apikey" := key ]} in
        let rq := mkRequest ALPHA_VANTAGE_BASE_URL params in
        let '(o, w') := requests_get N rq w in
        match o with
        | HttpJson data => (Ret data, w', [rq])
        | HttpRaise e =>
            if is_RequestException e then
              (Ret {[ "error" := VStr ("API request failed: " +:+ exn_msg e) ]}, w', [rq])
            else (Raise e, w', [rq])
        end
  | None =>
      (Ret {[ "error" := VStr "Alpha Vantage API key not configured" ]}, w, [])
  end.

(** [make_api_request(function, **kwargs)].  A keyword argument named
    [function] collides with the positional parameter, and the call raises
    [TypeError] before the body is entered. *)
Definition make_api_request (function : string) (kwargs : gmap string string)
    (w : world N) : res (gmap string value) * world N * list request :=
  match kwargs !! "function" with
  | Some _ =>
      (Raise (TypeError "make_api_request() got multiple values for argument 'function'"),
       w, [])
  | None => make_api_request_body function kwargs w
  end.

(** [d.get(k, 'N/A')] on an object of strings *)
Definition get_or_NA (d : gmap string string) (k : string) : string :=
  default "N/A" (d !! k).

Definition format_quote (symbol : string) (quote : gmap string string) : string :=
  "Stock Quote for " +:+ symbol +:+ ":
• Current Price: $" +:+ get_or_NA quote "05. price" +:+ "
• Change: " +:+ get_or_NA quote "09. change" +:+ " (" +:+ get_or_NA quote "10. change percent" +:+ ")
• Volume: " +:+ get_or_NA quote "06. volume" +:+ "
• Last Updated: " +:+ get_or_NA quote "07. latest trading day" +:+ "
".

(** [get_stock_quote(symbol)] *)
Definition get_stock_quote (symbol : string) (w : world N)
    : res string * world N * list request :=
  let symbol := upper (unicode N) symbol in
  let '(r, w', reqs) := make_api_request "GLOBAL_QUOTE" {[ "symbol" := symbol ]} w in
  match r with
  | Raise e => (Raise e, w', reqs)
  | Ret data =>
      match data !! "error" with
      | Some err => (Ret ("Error: " +:+ str_of_value N err), w', reqs)
      | None =>
          match data !! "Error Message" with
          | Some _ =>
              (Ret ("Error: Invalid symbol '" +:+ symbol +:+ "' or API limit reached"), w', reqs)
          | None =>
              let quote := default (VDict ∅) (data !! "Global Quote") in
              if negb (truthy quote) then
                (Ret ("No data found for symbol: " +:+ symbol), w', reqs)
              else
                match quote with
                | VDict q => (Ret (format_quote symbol q), w', reqs)
                | VStr _ => (Raise (AttributeError "'str' object has no attribute 'get'"), w', reqs)
                | VList _ => (Raise (AttributeError "'list' object has no attribute 'get'"), w', reqs)
                end
          end
      end
  end.

(** One line of the search result, [f"{i}. {symbol} - {name}\n"]. *)
Definition format_match (i : nat) (m : gmap string string) : string :=
  str_of_nat i +:+ ". " +:+ get_or_NA m "1. symbol" +:+ " - " +:+ get_or_NA m "2. name" +:+ "
".

(** The loop [for i, match in enumerate(ms, i): result += ...]. *)
Fixpoint format_matches (result : string) (i : nat) (ms : list (gmap string string)) : string :=
  match ms with
  | [] => result
  | m :: ms' => format_matches (result +:+ format_match i m) (S i) ms'
  end.

(** [search_stocks(query)] *)
Definition search_stocks (query : string) (w : world N)
    : res string * world N * list request :=
  let '(r, w', reqs) := make_api_request "SYMBOL_SEARCH" {[ "keywords" := query ]} w in
  match r with
  | Raise e => (Raise e, w', reqs)
  | Ret data =>
      match data !! "error" with
      | Some err => (Ret ("Error: " +:+ str_of_value N err), w', reqs)
      | None =>
          let matches := default (VList []) (data !! "bestMatches") in
          if negb (truthy matches) then
            (Ret ("No stocks found matching: " +:+ query), w', reqs)
          else
            match matches with
            | VList ms =>
                let result := "Search results for '" +:+ query +:+ "':

" in
                (Ret (format_matches result 1 (firstn 5 ms)), w', reqs)
            | VStr _ => (Raise (AttributeError "'str' object has no attribute 'get'"), w', reqs)
            | VDict _ => (Raise (TypeError "unhashable type: 'slice'"), w', reqs)
            end
      end
  end.

Definition format_crypto (exchange_rate : gmap string string) : string :=
  "Crypto Price for " +:+ get_or_NA exchange_rate "1. From_Currency Code" +:+ ":
• Current Price: $" +:+ get_or_NA exchange_rate "5. Exchange Rate" +:+ " USD
• Last Updated: " +:+ get_or_NA exchange_rate "6. Last Refreshed" +:+ "
".

(** [get_crypto_price(symbol)] *)
Definition get_crypto_price (symbol : string) (w : world N)
    : res string * world N * list request :=
  let symbol := upper (unicode N) symbol in
  let '(r, w', reqs) :=
    make_api_request "CURRENCY_EXCHANGE_RATE"
      {[ "from_currency" := symbol; "to_currency" := "USD" ]} w in
  match r with
  | Raise e => (Raise e, w', reqs)
  | Ret data =>
      match data !! "error" with
      | Some err => (Ret ("Error: " +:+ str_of_value N err), w', reqs)
      | None =>
          match data !! "Error Message" with
          | Some _ =>
              (Ret ("Error: Invalid crypto symbol '" +:+ symbol +:+
                    "' or API limit reached"), w', reqs)
          | None =>
              let exchange_rate :=
                default (VDict ∅) (data !! "Realtime Currency Exchange Rate") in
              if negb (truthy exchange_rate) then
                (Ret ("No data found for crypto: " +:+ symbol), w', reqs)
              else
                match exchange_rate with
                | VDict rate => (Ret (format_crypto rate), w', reqs)
                | VStr _ => (Raise (AttributeError "'str' object has no attribute 'get'"), w', reqs)
                | VList _ => (Raise (AttributeError "'list' object has no attribute 'get'"), w', reqs)
                end
          end
      end
  end.

End Tools.

End Server.

(** ** The orchestrator host, [src/host.py] *)

Module Host.

(** *** Data *)

(** Structured values passed through unchanged: tool schemas and the
    arguments of a tool call. *)
#[warnings="-register-all"]
Inductive json : Type :=
| JNull
| JBool (b : bool)
| JNum (z : Z)
| JStr (s : string)
| JArr (l : list json)
| JObj (l : list (string * json)).

(** A tool descriptor as [list_tools()] returns it. *)
Record Tool : Type := mkTool {
  tool_name : string;
  tool_description : string;
  tool_inputSchema : json
}.

(** A tool descriptor in the shape the LLM API takes:
    [{"name": .., "description": .., "input_schema": ..}]. *)
Record ClaudeTool : Type := mkClaudeTool {
  ct_name : string;
  ct_description : string;
  ct_input_schema : json
}.

(** A content block of an LLM response. *)
Inductive ContentBlock : Type :=
| TextBlock (text : string)
| ToolUseBlock (id : string) (name : string) (input : json).

(** [block.type] *)
Definition block_type (b : ContentBlock) : string :=
  match b with
  | TextBlock _ => "text"
  | ToolUseBlock _ _ _ => "tool_use"
  end.

(** [block.text]: only a text block has the attribute. *)
Definition block_text (b : ContentBlock) : res string :=
  match b with
  | TextBlock t => Ret t
  | ToolUseBlock _ _ _ =>
      Raise (AttributeError "'ToolUseBlock' object has no attribute 'text'")
  end.

Record Response : Type := mkResponse {
  stop_reason : string;
  content : list ContentBlock
}.

(** [response.content[0].text] *)
Definition first_text (r : Response) : res string :=
  match content r with
  | [] => Raise (IndexError "list index out of range")
  | b :: _ => block_text b
  end.

(** [{"type": "tool_result", "tool_use_id": .., "content": ..}] *)
Record ToolResult : Type := mkToolResult {
  tool_use_id : string;
  tool_result_content : string
}.

Inductive MessageContent : Type :=
| MText (s : string)
| MBlocks (bs : list ContentBlock)
| MToolResults (rs : list ToolResult).

Record Message : Type := mkMessage {
  role : string;
  message_content : MessageContent
}.

(** The keyword arguments of [messages.create]. *)
Record LLMRequest : Type := mkLLMRequest {
  rq_model : string;
  rq_max_tokens : Z;
  rq_tools : option (list ClaudeTool);
  rq_messages : list Message
}.

(** A content item of a tool result; only [TextContent] has [.text]. *)
Inductive MCPContent : Type :=
| TextContent (text : string)
| OtherContent (class_name : string).

Definition mcp_content_text (c : MCPContent) : res string :=
  match c with
  | TextContent t => Ret t
  | OtherContent cls =>
      Raise (AttributeError ("'" +:+ cls +:+ "' object has no attribute 'text'"))
  end.

(** [result.content]: [None] or a list. *)
Record CallToolResult : Type := mkCallToolResult {
  result_content : option (list MCPContent)
}.

(** A transport with its session, as the server hands it out. *)
Definition conn : Type := nat.

(** *** The outside world *)

(** Each oracle is one awaited call of the host, its [asyncio.wait_for]
    included: a timeout is the oracle raising a [CTimeout] exception. *)
Record Env : Type := mkEnv {
  world : Type;
  (** [anthropic.Anthropic(api_key=key)] *)
  anthropic_client : string -> world -> res unit * world;
  (** [exit_stack.enter_async_context(sse_client(url))] *)
  sse_client : string -> world -> res conn * world;
  (** [exit_stack.enter_async_context(ClientSession(read, write))] *)
  client_session : conn -> world -> res unit * world;
  (** [session.initialize()] *)
  initialize : conn -> world -> res unit * world;
  (** [session.list_tools()], giving [tools_response.tools] *)
  list_tools : conn -> world -> res (list Tool) * world;
  (** [session.call_tool(name, arguments)] *)
  call_tool : conn -> string -> json -> world -> res CallToolResult * world;
  (** [anthropic_client.messages.create(...)] *)
  messages_create : LLMRequest -> world -> res Response * world;
  (** [exit_stack.aclose()] *)
  aclose : world -> res unit * world;
  (** [asyncio.sleep(delay)], when it returns (a sleep of plus infinity
      does not) *)
  sleep : pyfloat -> world -> world;
  (** [input(prompt)] *)
  input : string -> world -> res string * world;
  (** the Unicode tables behind [str.lower] and [str.strip] *)
  unicode : Unicode
}.

(** What the host does to the outside, with what came back.  [EvAttempt i]
    marks the start of the body of the connection loop for attempt [i]
    (where the source prints "Connection attempt i/N..."); the other
    events are the awaited calls. *)
Inductive event : Type :=
| EvAttempt (attempt : Z)
| EvSseClient (url : string) (r : res conn)
| EvClientSession (c : conn) (r : res unit)
| EvInitialize (c : conn) (r : res unit)
| EvListTools (c : conn) (r : res (list Tool))
| EvCallTool (c : conn) (name : string) (arguments : json) (r : res CallToolResult)
| EvMessagesCreate (rq : LLMRequest) (r : res Response)
| EvAclose (r : res unit)
| EvSleep (delay : pyfloat)
| EvInput (prompt : string) (r : res string).

(** The attributes of [FinanceAnalyzerHost] that the methods read or write.
    [exit_stack] is whether the attribute holds a stack (an [AsyncExitStack]
    is always true) or [None]. *)
Record host : Type := mkHost {
  mcp_session : option conn;
  available_tools : list Tool;
  exit_stack : bool;
  server_url : string;
  max_retries : Z;
  base_delay : Q;
  proceed_without_tools : bool
}.

Definition set_mcp_session (s : option conn) (h : host) : host :=
  mkHost s (available_tools h) (exit_stack h) (server_url h) (max_retries h)
         (base_delay h) (proceed_without_tools h).

Definition set_available_tools (ts : list Tool) (h : host) : host :=
  mkHost (mcp_session h) ts (exit_stack h) (server_url h) (max_retries h)
         (base_delay h) (proceed_without_tools h).

Definition set_exit_stack (b : bool) (h : host) : host :=
  mkHost (mcp_session h) (available_tools h) b (server_url h) (max_retries h)
         (base_delay h) (proceed_without_tools h).

Definition set_proceed_without_tools (b : bool) (h : host) : host :=
  mkHost (mcp_session h) (available_tools h) (exit_stack h) (server_url h)
         (max_retries h) (base_delay h) b.

Section Monad.

Variable E : Env.

(** *** A monad for the methods

    A method runs from a host object and a world to a result (or a raised
    exception), the host and world it leaves, and the events it emitted. *)
Definition M (A : Type) : Type :=
  host -> world E -> res A * host * world E * list event.

Definition ret {A : Type} (a : A) : M A := fun h w => (Ret a, h, w, []).

Definition raise {A : Type} (e : exn) : M A := fun h w => (Raise e, h, w, []).

Definition bind {A B : Type} (m : M A) (f : A -> M B) : M B :=
  fun h w =>
    let '(r, h1, w1, t1) := m h w in
    match r with
    | Ret a => let '(r2, h2, w2, t2) := f a h1 w1 in (r2, h2, w2, t1 ++ t2)
    | Raise e => (Raise e, h1, w1, t1)
    end.

(** [try: m  except ...: handler(e)]; the handler decides by the class of
    [e] and raises [e] again when no clause matches. *)
Definition try_except {A : Type} (m : M A) (handler : exn -> M A) : M A :=
  fun h w =>
    let '(r, h1, w1, t1) := m h w in
    match r with
    | Ret a => (Ret a, h1, w1, t1)
    | Raise e => let '(r2, h2, w2, t2) := handler e h1 w1 in (r2, h2, w2, t1 ++ t2)
    end.

(** [try: m  finally: fin] where [fin] cannot raise. *)
Definition try_finally {A : Type} (m : M A) (fin : host -> host) : M A :=
  fun h w => let '(r, h1, w1, t1) := m h w in (r, fin h1, w1, t1).

Definition get {A : Type} (f : host -> A) : M A := fun h w => (Ret (f h), h, w, []).

Definition modify (f : host -> host) : M unit := fun h w => (Ret tt, f h, w, []).

Definition emit (ev : event) : M unit := fun h w => (Ret tt, h, w, [ev]).

(** An awaited call to the outside: run the oracle, log what came back. *)
Definition call {A : Type} (f : world E -> res A * world E) (ev : res A -> event) : M A :=
  fun h w => let '(r, w') := f w in (r, h, w', [ev r]).

(** Lift a pure result. *)
Definition lift {A : Type} (r : res A) : M A := fun h w => (r, h, w, []).

End Monad.

Arguments ret {E A} a.
Arguments raise {E A} e.
Arguments bind {E A B} m f.
Arguments try_except {E A} m handler.
Arguments try_finally {E A} m fin.
Arguments get {E A} f.
Arguments modify {E} f.
Arguments emit {E} ev.
Arguments call {E A} f ev.
Arguments lift {E A} r.

(** The four components of a run. *)
Definition result_of {E : Env} {A : Type} (x : res A * host * world E * list event) : res A :=
  fst (fst (fst x)).
Definition host_of {E : Env} {A : Type} (x : res A * host * world E * list event) : host :=
  snd (fst (fst x)).
Definition world_of {E : Env} {A : Type} (x : res A * host * world E * list event) : world E :=
  snd (fst x).
Definition trace_of {E : Env} {A : Type} (x : res A * host * world E * list event) : list event :=
  snd x.

Notation "x <- m ;; k" := (bind m (fun x => k))
  (at level 100, m at next level, right associativity).
Notation "m ;; k" := (bind m (fun _ => k))
  (at level 100, right associativity).

(** *** Connection management *)

Section Methods.

Variable E : Env.

(** [cleanup_connections()]: close the exit stack if there is one, swallow
    what [Exception] it raises, and unset both handles in any case. *)
Definition cleanup_connections : M E unit :=
  try_finally
    (try_except
       (stack <- get exit_stack ;;
        if stack then call (aclose E) EvAclose else ret tt)
       (fun e => if is_Exception e then ret tt else raise e))
    (fun h => set_mcp_session None (set_exit_stack false h)).

(** [discover_tools()] *)
Definition discover_tools : M E bool :=
  try_except
    (session <- get mcp_session ;;
     match session with
     | None => raise (AttributeError "'NoneType' object has no attribute 'list_tools'")
     | Some c =>
         tools <- call (list_tools E c) (EvListTools c) ;;
         modify (set_available_tools tools) ;;
         match tools with
         | _ :: _ => ret true
         | [] => ret false
         end
     end)
    (fun e =>
       if is_TimeoutError e then ret false
       else if is_Exception e then ret false
       else raise e).

(** The body of the [try] of one connection attempt; its value is
    [success], on which the method returns [True] at once. *)
Definition connection_attempt (attempt : Z) : M E bool :=
  emit (EvAttempt attempt) ;;
  stack <- get exit_stack ;;
  (if stack then cleanup_connections else ret tt) ;;
  modify (set_exit_stack true) ;;
  url <- get server_url ;;
  c <- call (sse_client E url) (EvSseClient url) ;;
  call (client_session E c) (EvClientSession c) ;;
  modify (set_mcp_session (Some c)) ;;
  call (initialize E c) (EvInitialize c) ;;
  discover_tools.

(** [base_delay * (2 ** (attempt - 1))] for an attempt from 1 on.  The power
    is an [int], which the product first converts to a float: from
    [2 ** 1024] on that raises [OverflowError].  Scaling a float by a power of
    two is exact, so the product is computed over the rationals. *)
Definition backoff_delay (base : Q) (attempt : Z) : res pyfloat :=
  if (1024 <=? attempt - 1)%Z
  then Raise (OverflowError "int too large to convert to float")
  else Ret (to_float (base * inject_Z (2 ^ (attempt - 1)))%Q).

(** The [try] of one attempt with its two [except] clauses, which only
    print: [True] when the body returned [True], [False] when it fell
    through or an [Exception] was caught. *)
Definition guarded_attempt (attempt : Z) : M E bool :=
  try_except (connection_attempt attempt)
    (fun e =>
       if is_TimeoutError e then ret false
       else if is_Exception e then ret false
       else raise e).

(** What follows a failed attempt: the cleanup, and the backoff unless the
    attempt was the last one.  This is outside the [try] of the attempt: an
    exception of the delay computation leaves the method. *)
Definition after_failed_attempt (attempt : Z) : M E unit :=
  cleanup_connections ;;
  retries <- get max_retries ;;
  if (attempt <? retries)%Z then
    base <- get base_delay ;;
    delay <- lift (backoff_delay base attempt) ;;
    fun h w => (Ret tt, h, sleep E delay w, [EvSleep delay])
  else ret tt.

(** The [for attempt in range(1, max_retries + 1)] loop over the attempts
    that remain. *)
Fixpoint connect_attempts (attempts : list Z) : M E bool :=
  match attempts with
  | [] => ret false
  | attempt :: rest =>
      success <- guarded_attempt attempt ;;
      if success : bool then ret true
      else
        after_failed_attempt attempt ;;
        connect_attempts rest
  end.

(** [range(1, n + 1)] *)
Definition range_from_1 (n : Z) : list Z :=
  map Z.of_nat (seq 1 (Z.to_nat n)).

(** [connect_to_mcp_server()] *)
Definition connect_to_mcp_server : M E bool :=
  retries <- get max_retries ;;
  connect_attempts (range_from_1 retries).

End Methods.

(** *** Tool invocation *)

Section Conversation.

Variable E : Env.

(** [format_tools_for_claude()]; a descriptor always has its three
    attributes, so the [except] clause of the loop body is never entered. *)
Definition claude_tool (tool : Tool) : ClaudeTool :=
  mkClaudeTool (tool_name tool) (tool_description tool) (tool_inputSchema tool).

Definition format_tools_for_claude (h : host) : list ClaudeTool :=
  map claude_tool (available_tools h).

Definition connection_keywords : list string :=
  ["connection"; "protocol"; "remote"; "disconnect"; "closed";
   "reset"; "refused"; "unreachable"; "timeout"; "network"].

(** [any(keyword in error_type.lower() or keyword in error_msg for ...)]
    with [error_type = type(e).__name__] and [error_msg = str(e).lower()]. *)
Definition is_connection_error (e : exn) : bool :=
  let error_type := exn_name e in
  let error_msg := lower (unicode E) (exn_msg e) in
  any (fun keyword =>
         contains keyword (lower (unicode E) error_type) || contains keyword error_msg)
      connection_keywords.

Definition server_unavailable_message : string :=
  "MCP server is no longer available. The server may have been shut down. " +:+
  "You can continue with general questions or restart the server and try again.".

Definition tool_timeout_message (tool_name : string) : string :=
  "Tool " +:+ tool_name +:+ " timed out after 30 seconds - MCP server may be unavailable".

(** [call_mcp_tool(tool_name, arguments)] *)
Definition call_mcp_tool (tool_name : string) (arguments : json) : M E string :=
  try_except
    (session <- get mcp_session ;;
     match session with
     | None => raise (AttributeError "'NoneType' object has no attribute 'call_tool'")
     | Some c =>
         result <- call (call_tool E c tool_name arguments)
                        (EvCallTool c tool_name arguments) ;;
         match result_content result with
         | Some (first :: _) => lift (mcp_content_text first)
         | _ => ret ("Tool " +:+ tool_name +:+ " executed but returned no content")
         end
     end)
    (fun e =>
       if is_TimeoutError e then ret (tool_timeout_message tool_name)
       else if is_Exception e then
         if is_connection_error e then
           modify (set_available_tools []) ;;
           ret server_unavailable_message
         else ret ("Error calling tool " +:+ tool_name +:+ ": " +:+ exn_name e)
       else raise e).

(** *** Conversation *)

Definition model_id : string := "claude-3-5-sonnet-20241022".

Definition tool_result_message (tool_call_id tool_result : string) : Message :=
  mkMessage "user" (MToolResults [mkToolResult tool_call_id tool_result]).

(** The loop [for content_block in response.content] of [handle_tool_use];
    [messages] is the list the loop appends to. *)
Fixpoint execute_tool_calls (blocks : list ContentBlock) (messages : list Message)
    : M E (list Message) :=
  match blocks with
  | [] => ret messages
  | ToolUseBlock tool_call_id tool_name tool_input :: rest =>
      tool_result <- call_mcp_tool tool_name tool_input ;;
      execute_tool_calls rest (messages ++ [tool_result_message tool_call_id tool_result])
  | TextBlock _ :: rest => execute_tool_calls rest messages
  end.

(** [handle_tool_use(response, messages)] *)
Definition handle_tool_use (response : Response) (messages : list Message) : M E string :=
  try_except
    (let messages := messages ++ [mkMessage "assistant" (MBlocks (content response))] in
     messages <- execute_tool_calls (content response) messages ;;
     tools <- get format_tools_for_claude ;;
     let rq := mkLLMRequest model_id 1000 (Some tools) messages in
     final_response <- call (messages_create E rq) (EvMessagesCreate rq) ;;
     lift (first_text final_response))
    (fun e =>
       if is_TimeoutError e then ret "Tool execution timed out"
       else if is_Exception e then ret ("Error during tool execution: " +:+ exn_name e)
       else raise e).

Definition tools_unavailable_note : Message :=
  mkMessage "system"
    (MText ("Note: MCP server tools are currently unavailable. " +:+
            "Provide a helpful response based on general knowledge.")).

Definition is_nil {A : Type} (l : list A) : bool :=
  match l with [] => true | _ => false end.

(** [get_claude_response(user_message)].  The [print] after the request
    evaluates [response.content[0].text] before the stop reason is looked
    at. *)
Definition get_claude_response (user_message : string) : M E string :=
  try_except
    (claude_tools <- get format_tools_for_claude ;;
     let messages := [mkMessage "user" (MText user_message)] in
     let messages :=
       if is_nil claude_tools then messages ++ [tools_unavailable_note] else messages in
     let rq := mkLLMRequest model_id 1000
                 (if is_nil claude_tools then None else Some claude_tools) messages in
     response <- call (messages_create E rq) (EvMessagesCreate rq) ;;
     lift (first_text response) ;;
     if String.eqb (stop_reason response) "tool_use" && negb (is_nil claude_tools)
     then handle_tool_use response messages
     else lift (first_text response))
    (fun e =>
       if is_TimeoutError e then ret "Claude request timed out after 30 seconds"
       else if is_Exception e then
         if contains "authentication" (lower (unicode E) (exn_name e))
         then ret "Authentication error with Claude API. Please check your ANTHROPIC_API_KEY."
         else ret ("Error communicating with Claude: " +:+ exn_name e)
       else raise e).

End Conversation.

(** *** The interactive shell and the entry point *)

(** [x in [a, b, ...]] on strings *)
Definition str_in (x : string) (l : list string) : bool := existsb (String.eqb x) l.

Inductive loop_control : Type := Continue | Break.

Section Shell.

Variable E : Env.

Definition proceed_prompt : string := "Proceed without financial tools? (yes/no): ".

(** The part of the loop body that decides whether the question goes to the
    LLM: reconnect when there are no tools and the user has not chosen to go
    on without them. *)
Definition ensure_tools : M E bool :=
  tools <- get available_tools ;;
  proceed <- get proceed_without_tools ;;
  if is_nil tools && negb proceed then
    connected <- connect_to_mcp_server E ;;
    if connected : bool then ret true
    else
      answer <- call (input E proceed_prompt) (EvInput proceed_prompt) ;;
      let choice := lower (unicode E) (strip (unicode E) answer) in
      if str_in choice ["yes"; "y"] then
        modify (set_proceed_without_tools true) ;;
        ret true
      else ret false
  else ret true.

(** One pass through the body of [while True] in [run_interactive()]. *)
Definition interactive_turn : M E loop_control :=
  try_except
    (line <- call (input E "You: ") (EvInput "You: ") ;;
     let user_input := strip (unicode E) line in
     if str_in (lower (unicode E) user_input) ["quit"; "exit"; "q"] then ret Break
     else if String.eqb user_input EmptyString then ret Continue
     else
       go <- ensure_tools ;;
       if go : bool then
         get_claude_response E user_input ;;
         ret Continue
       else ret Continue)
    (fun e =>
       if is_KeyboardInterrupt e then ret Break
       else if is_EOFError e then ret Break
       else if is_Exception e then ret Continue
       else raise e).

(** [run_interactive()], for at most [fuel] passes of the loop: [Some tt]
    when the loop was left, [None] when it is still running. *)
Fixpoint run_interactive (fuel : nat) : M E (option unit) :=
  match fuel with
  | O => ret None
  | S fuel' =>
      c <- interactive_turn ;;
      match c with
      | Break => ret (Some tt)
      | Continue => run_interactive fuel'
      end
  end.

(** The attributes [__init__] sets before it looks at the API key. *)
Definition new_host : host :=
  mkHost None [] false "http://localhost:8000/sse" 3 1 false.

(** [FinanceAnalyzerHost()], given [os.getenv("ANTHROPIC_API_KEY")]. *)
Definition init (ANTHROPIC_API_KEY : option string) (w : world E)
    : res host * world E :=
  match ANTHROPIC_API_KEY with
  | Some key =>
      if String.eqb key EmptyString then (Raise (SystemExit 1), w)
      else
        let '(r, w') := anthropic_client E key w in
        match r with
        | Ret _ => (Ret new_host, w')
        | Raise e => if is_Exception e then (Raise (SystemExit 1), w') else (Raise e, w')
        end
  | None => (Raise (SystemExit 1), w)
  end.

(** [cleanup()] *)
Definition cleanup : M E unit := cleanup_connections E.

(** [main()].  [except KeyboardInterrupt] and [except Exception] only print;
    the [finally] clause runs [host.cleanup()] under a bare [except], which
    also swallows the [NameError] when [host] was never bound. *)
Definition main (ANTHROPIC_API_KEY : option string) (fuel : nat) (w : world E)
    : res (option unit) * option host * world E * list event :=
  let '(r0, w0) := init ANTHROPIC_API_KEY w in
  match r0 with
  | Raise e =>
      if is_KeyboardInterrupt e || is_Exception e then (Ret (Some tt), None, w0, [])
      else (Raise e, None, w0, [])
  | Ret h0 =>
      let body :=
        connected <- connect_to_mcp_server E ;;
        if connected : bool then run_interactive fuel else ret (Some tt) in
      let '(r1, h1, w1, t1) :=
        try_except body
          (fun e => if is_KeyboardInterrupt e || is_Exception e
                    then ret (Some tt) else raise e) h0 w0 in
      match r1 with
      | Ret None => (Ret None, Some h1, w1, t1)
      | _ =>
          let '(_, h2, w2, t2) := cleanup h1 w1 in
          (r1, Some h2, w2, t1 ++ t2)
      end
  end.

(** The exit status of the interpreter when the module body ends with [r]:
    the code of a [SystemExit], 1 for any other exception in flight. *)
Definition exit_status (r : res unit) : Z :=
  match r with
  | Ret _ => 0
  | Raise e =>
      match exn_class_of e with
      | CSystemExit code => code
      | _ => 1
      end
  end.

(** [try: ... finally: raise e']: the exception raised by the [finally]
    clause replaces whatever the [try] left in flight. *)
Definition finally_raise {A : Type} (r : res A) (e' : exn) : res A := Raise e'.

(** The [if __name__ == "__main__"] block: [asyncio.run(main())] hands on
    what [main()] returns or raises; the result is the exit status of the
    process, or [None] while the shell is still running. *)
Definition module_main (ANTHROPIC_API_KEY : option string) (fuel : nat) (w : world E)
    : option Z * world E * list event :=
  let '(r, _, w', t) := main ANTHROPIC_API_KEY fuel w in
  match r with
  | Ret None => (None, w', t)
  | _ =>
      let handled : res unit :=
        match r with
        | Ret _ => Ret tt
        | Raise e => if is_KeyboardInterrupt e || is_Exception e then Ret tt else Raise e
        end in
      (Some (exit_status (finally_raise handled (SystemExit 0))), w', t)
  end.

End Shell.

(** *** Statements about runs *)

(** [wp m h w Q]: the run of [m] from [h] and [w] satisfies [Q]. *)
Definition wp {E : Env} {A : Type} (m : M E A) (h : host) (w : world E)
    (Q : res A -> host -> world E -> list event -> Prop) : Prop :=
  Q (result_of (m h w)) (host_of (m h w)) (world_of (m h w)) (trace_of (m h w)).

Definition is_tool_call (ev : event) : bool :=
  match ev with EvCallTool _ _ _ _ => true | _ => false end.

Definition is_completion (ev : event) : bool :=
  match ev with EvMessagesCreate _ _ => true | _ => false end.

(** The tool-use requests of a response, in the order of its blocks. *)
Fixpoint tool_uses (blocks : list ContentBlock) : list (string * string * json) :=
  match blocks with
  | [] => []
  | ToolUseBlock id name input :: rest => (id, name, input) :: tool_uses rest
  | TextBlock _ :: rest => tool_uses rest
  end.

(** What a completion request may offer as tools from a host [h]: nothing,
    the empty list, or the stored catalog as [format_tools_for_claude]
    gives it. *)
Definition offers (h : host) (rq : LLMRequest) : Prop :=
  rq_tools rq = None \/ rq_tools rq = Some [] \/
  (available_tools h <> [] /\ rq_tools rq = Some (format_tools_for_claude h)).

(** What is returned when the second request was answered with [r2],
    whatever the stop reason of the answer: the text of its first block
    when that is a text block, and an error text when the answer begins
    with a tool-use block or has no block at all. *)
Definition returns_text_of (r : res string) (r2 : res Response) : Prop :=
  match r2 with
  | Ret second =>
      match content second with
      | TextBlock text :: _ => r = Ret text
      | ToolUseBlock _ _ _ :: _ => r = Ret "Error during tool execution: AttributeError"
      | [] => r = Ret "Error during tool execution: IndexError"
      end
  | Raise _ => True
  end.

(** The shape of the events of one user turn: a first completion request,
    then tool calls only, then possibly a second completion request, after
    which nothing follows; [final r2 ] says what the turn returns when the
    second request was answered with [r2]. *)
Definition turn_shape (h : host) (t : list event) (final : res Response -> Prop) : Prop :=
  exists rq1 r1 calls,
    offers h rq1 /\
    Forall (fun ev => is_tool_call ev = true) calls /\
    (t = EvMessagesCreate rq1 r1 :: calls \/
     exists rq2 r2,
       offers h rq2 /\
       t = EvMessagesCreate rq1 r1 :: calls ++ [EvMessagesCreate rq2 r2] /\
       final r2).


(** Events of the connection manager, as opposed to those of a
    conversation (completion requests, tool calls, terminal input). *)
Definition is_connection_event (ev : event) : bool :=
  match ev with
  | EvAttempt _ | EvSseClient _ _ | EvClientSession _ _ | EvInitialize _ _
  | EvListTools _ _ | EvAclose _ | EvSleep _ => true
  | EvCallTool _ _ _ _ | EvMessagesCreate _ _ | EvInput _ _ => false
  end.

(** The attempts and the sleeps of a run, in order. *)
Definition is_schedule_event (ev : event) : bool :=
  match ev with EvAttempt _ | EvSleep _ => true | _ => false end.

Definition schedule (t : list event) : list event := List.filter is_schedule_event t.

(** The schedule the backoff rule prescribes when [k] attempts are made:
    attempt 1 at once, and before each attempt [i > 1] a sleep of
    [base * 2^(i-2)] as a float; nothing after the last attempt. *)
Definition expected_schedule (base : Q) (k : nat) : list event :=
  match k with
  | O => []
  | S k' =>
      EvAttempt 1 ::
      flat_map (fun i : Z =>
                  [EvSleep (to_float (base * inject_Z (2 ^ (i - 2)))%Q); EvAttempt i])
               (map Z.of_nat (seq 2 k'))
  end.

(** The same schedule with each delay written as the rational it is:
    attempt 1, then before each attempt [i > 1] a sleep of exactly
    [base * 2^(i-2)] seconds. *)
Definition exact_schedule (base : Q) (k : nat) : list event :=
  match k with
  | O => []
  | S k' =>
      EvAttempt 1 ::
      flat_map (fun i : Z => [EvSleep (Finite (base * inject_Z (2 ^ (i - 2)))%Q); EvAttempt i])
               (map Z.of_nat (seq 2 k'))
  end.

(** The same schedule as the loop produces it from attempt [a] on. *)
Fixpoint schedule_from (base : Q) (a : Z) (k : nat) : list event :=
  match k with
  | O => []
  | S k' =>
      EvAttempt a ::
      match k' with
      | O => []
      | S _ =>
          EvSleep (to_float (base * inject_Z (2 ^ (a - 1)))%Q) ::
          schedule_from base (a + 1) k'
      end
  end.

(** The exceptions the outside raised into the host during a run. *)
Definition raised (ev : event) : list exn :=
  match ev with
  | EvSseClient _ (Raise e) | EvClientSession _ (Raise e) | EvInitialize _ (Raise e)
  | EvListTools _ (Raise e) | EvCallTool _ _ _ (Raise e) | EvMessagesCreate _ (Raise e)
  | EvAclose (Raise e) | EvInput _ (Raise e) => [e]
  | _ => []
  end.

Definition raised_exceptions (t : list event) : list exn := flat_map raised t.

(** The listings that returned a non-empty catalog. *)
Definition discovery (ev : event) : list (conn * list Tool) :=
  match ev with
  | EvListTools c (Ret (tool :: tools)) => [(c, tool :: tools)]
  | _ => []
  end.

Definition discoveries (t : list event) : list (conn * list Tool) := flat_map discovery t.

(** The configuration attributes, which no method assigns. *)
Definition same_config (h h' : host) : Prop :=
  server_url h' = server_url h /\ max_retries h' = max_retries h /\
  base_delay h' = base_delay h /\ proceed_without_tools h' = proceed_without_tools h.

(** The stored catalog is what it was, or empty. *)
Definition catalog_kept_or_cleared (h h' : host) : Prop :=
  available_tools h' = available_tools h \/ available_tools h' = [].

(** The run ends with a listing on the session the host now holds, and the
    host stores what it returned. *)
Definition ends_with_discovery (t : list event) (h' : host) : Prop :=
  exists pre c tools,
    t = pre ++ [EvListTools c (Ret tools)] /\ tools <> [] /\
    available_tools h' = tools /\ mcp_session h' = Some c.

(** What one guarded attempt does: it is one entry of the schedule, touches
    the connection only, and either ends with a successful listing whose
    catalog the host stores, or fails leaving the catalog as it was or
    empty, or lets through an exception that is not an [Exception]. *)
Definition attempt_outcome (h : host) (r : res bool) (h' : host) (t : list event) : Prop :=
  match r with
  | Ret true => ends_with_discovery t h'
  | Ret false => catalog_kept_or_cleared h h' /\ discoveries t = []
  | Raise e =>
      is_Exception e = false /\ In e (raised_exceptions t) /\ catalog_kept_or_cleared h h'
  end.

(** The exception of the delay computation, [base_delay * (2 ** 1024)] and
    beyond. *)
Definition delay_overflow : exn := OverflowError "int too large to convert to float".

(** What the whole method does: as one attempt, except that it can also
    raise the [OverflowError] of the delay computation, which takes 1025
    failed attempts with a further one to come. *)
Definition connect_outcome (h : host) (r : res bool) (h' : host) (t : list event) : Prop :=
  match r with
  | Raise e =>
      catalog_kept_or_cleared h h' /\
      ((is_Exception e = false /\ In e (raised_exceptions t)) \/
       (e = delay_overflow /\ discoveries t = [] /\ (1026 <= max_retries h)%Z))
  | _ => attempt_outcome h r h' t
  end.

(** A stretch of events in which the connection is not touched: nothing is
    opened, closed or listed. *)
Definition quiet (t : list event) : Prop :=
  Forall (fun ev => is_connection_event ev = false) t.






(** The tool calls a response asks for, one event per tool-use block in
    the order of the blocks, on connection [c] with the given outcomes. *)
Fixpoint tool_call_events (c : conn) (uses : list (string * string * json))
    (outcomes : list (res CallToolResult)) : list event :=
  match uses, outcomes with
  | (_, name, input) :: uses', o :: outcomes' =>
      EvCallTool c name input o :: tool_call_events c uses' outcomes'
  | _, _ => []
  end.

(** The tool-result messages for them, each tagged with the identifier of
    its block. *)
Fixpoint tool_result_messages (uses : list (string * string * json))
    (texts : list string) : list Message :=
  match uses, texts with
  | (id, _, _) :: uses', text :: texts' =>
      tool_result_message id text :: tool_result_messages uses' texts'
  | _, _ => []
  end.

End Host.

(** ** Reference descriptions and scripted environments *)

Module Scenario.

Import Server.

(** The lines of a search result, numbered from [i], written as the text
    reads rather than as the loop builds it. *)
Fixpoint numbered_lines (i : nat) (ms : list (gmap string string)) : string :=
  match ms with
  | [] => EmptyString
  | m :: ms' => format_match i m +:+ numbered_lines (S i) ms'
  end.

Definition search_header (query : string) : string :=
  "Search results for '" +:+ query +:+ "':

".

(** A line of the search result as the reader sees it: the number, the
    symbol and the name of a match, with N/A for a field the match lacks. *)
Definition listed_line (i : nat) (m : gmap string string) : string :=
  str_of_nat i +:+ ". " +:+ default "N/A" (m !! "1. symbol") +:+ " - " +:+
  default "N/A" (m !! "2. name") +:+ "
".

(** The lines for a list of matches, numbered from [i] in the order of the
    list. *)
Fixpoint listing (i : nat) (ms : list (gmap string string)) : string :=
  match ms with
  | [] => EmptyString
  | m :: ms' => listed_line i m +:+ listing (S i) ms'
  end.

(** The text of the scenarios is ASCII, so their runs never consult the
    Unicode tables; the entries are left as the identity. *)
Definition ascii_text : Unicode := mkUnicode id id id.

(** A network that answers every request with the same object and counts
    the requests it saw. *)
Definition fixed_net (data : gmap string value) : Net :=
  mkNet nat (fun _ n => (HttpJson data, S n)) (fun _ => "<container>") ascii_text.

Definition company (symbol name : string) : gmap string string :=
  {[ "1. symbol" := symbol; "2. name" := name ]}.

Definition six_matches : list (gmap string string) :=
  [company "AAPL" "Apple Inc"; company "APLE" "Apple Hospitality REIT Inc";
   company "AAPL34.SAO" "Apple Inc"; company "APC.FRK" "Apple Inc";
   company "AGPL" "Apple Green Holding Inc"; company "APRU" "Apple Rush Company Inc"].

(** A network on which every request fails with the same exception. *)
Definition failing_net (e : exn) : Net :=
  mkNet nat (fun _ n => (HttpRaise e, S n)) (fun _ => "<container>") ascii_text.

Definition ConnectionError : exn :=
  mkExn CRequestException "ConnectionError" "Max retries exceeded".

Definition apple_quote : gmap string string :=
  {[ "01. symbol" := "AAPL"; "05. price" := "150.00"; "06. volume" := "1000";
     "07. latest trading day" := "2024-01-02"; "09. change" := "1.50";
     "10. change percent" := "1.01%" ]}.

Import Host.

(** A scripted outside world for the host: the transport, the listing, the
    LLM and the terminal answer by how many times they were asked before;
    entering the session, initialising it and closing the stack succeed. *)
Record counters : Type := mkCounters {
  connects : nat;
  listings : nat;
  completions : nat;
  inputs : nat
}.

Record script : Type := mkScript {
  on_connect : nat -> res conn;
  on_list : nat -> res (list Tool);
  on_call : string -> json -> res CallToolResult;
  on_completion : nat -> res Response;
  on_input : nat -> res string
}.

Definition scripted (s : script) : Env :=
  mkEnv counters
    (fun _ w => (Ret tt, w))
    (fun _ w => (on_connect s (connects w),
                 mkCounters (S (connects w)) (listings w) (completions w) (inputs w)))
    (fun _ w => (Ret tt, w))
    (fun _ w => (Ret tt, w))
    (fun _ w => (on_list s (listings w),
                 mkCounters (connects w) (S (listings w)) (completions w) (inputs w)))
    (fun _ name arguments w => (on_call s name arguments, w))
    (fun _ w => (on_completion s (completions w),
                 mkCounters (connects w) (listings w) (S (completions w)) (inputs w)))
    (fun w => (Ret tt, w))
    (fun _ w => w)
    (fun _ w => (on_input s (inputs w),
                 mkCounters (connects w) (listings w) (completions w) (S (inputs w))))
    ascii_text.

Definition start : counters := mkCounters 0 0 0 0.

Definition quote_tool : Tool :=
  mkTool "get_stock_quote" "Get current stock price and basic info for a given symbol"
         (JObj [("type", JStr "object")]).

Definition TimeoutError : exn := mkExn CTimeout "TimeoutError" EmptyString.
Definition ConnectError : exn := mkExn CException "ConnectError" "All connection attempts failed".

Definition aapl : json := JObj [("symbol", JStr "AAPL")].

(** A server that cannot be reached, one whose calls time out, and one
    that answers. *)
Definition unreachable : script :=
  mkScript (fun _ => Raise ConnectError) (fun _ => Raise ConnectError)
           (fun _ _ => Raise ConnectError)
           (fun _ => Ret (mkResponse "end_turn" [TextBlock "Hello"]))
           (fun _ => Ret "quit").

Definition timing_out : script :=
  mkScript (fun n => Ret n) (fun _ => Raise TimeoutError)
           (fun _ _ => Raise TimeoutError)
           (fun _ => Raise TimeoutError)
           (fun _ => Ret "quit").

(** A server that is reached and lists no tools. *)
Definition empty_server : script :=
  mkScript (fun n => Ret n) (fun _ => Ret [])
           (fun _ _ => Ret (mkCallToolResult None))
           (fun _ => Ret (mkResponse "end_turn" [TextBlock "Hello"]))
           (fun _ => Ret "quit").

Definition quote_request : Response :=
  mkResponse "tool_use" [ToolUseBlock "toolu_01" "get_stock_quote" aapl].

Definition announced_quote_request : Response :=
  mkResponse "tool_use"
    [TextBlock "I will look that up."; ToolUseBlock "toolu_01" "get_stock_quote" aapl].

(** A server that answers, with an LLM that first gives [first] and from
    then on [later]. *)
Definition answering (first later : Response) : script :=
  mkScript (fun n => Ret n) (fun _ => Ret [quote_tool])
           (fun _ _ => Ret (mkCallToolResult (Some [TextContent "AAPL: $150.00"])))
           (fun n => match n with O => Ret first | S _ => Ret later end)
           (fun _ => Ret "quit").

Definition KeyboardInterrupt : exn :=
  mkExn CKeyboardInterrupt "KeyboardInterrupt" EmptyString.

Definition AuthenticationError : exn :=
  mkExn CException "AuthenticationError" "invalid x-api-key".

(** A server that answers, while the user interrupts every tool call. *)
Definition interrupted : script :=
  mkScript (fun n => Ret n) (fun _ => Ret [quote_tool])
           (fun _ _ => Raise KeyboardInterrupt)
           (fun _ => Raise AuthenticationError)
           (fun _ => Raise KeyboardInterrupt).

(** A user who only ever enters blanks. *)
Definition silent : script :=
  mkScript (fun n => Ret n) (fun _ => Ret [quote_tool])
           (fun _ _ => Ret (mkCallToolResult None))
           (fun _ => Ret (mkResponse "end_turn" [TextBlock "Hello"]))
           (fun _ => Ret "   ").

Definition CancelledError : exn := mkExn CBaseException "CancelledError" EmptyString.

(** A terminal whose read is cancelled. *)
Definition cancelled : script :=
  mkScript (fun n => Ret n) (fun _ => Ret [quote_tool])
           (fun _ _ => Raise CancelledError)
           (fun _ => Raise CancelledError)
           (fun _ => Raise CancelledError).

(** A user who has agreed to go on without tools and asks one question. *)
Definition without_tools_host : host :=
  mkHost None [] false "http://localhost:8000/sse" 3 1 true.

(** A server that is reached at the third attempt. *)
Definition third_time_lucky : script :=
  mkScript (fun n => match n with
                     | S (S _) => Ret n
                     | _ => Raise ConnectError
                     end)
           (fun _ => Ret [quote_tool])
           (fun _ _ => Ret (mkCallToolResult (Some [TextContent "AAPL: $150.00"])))
           (fun _ => Ret (mkResponse "end_turn" [TextBlock "Hello"]))
           (fun _ => Ret "  QUIT ").

(** The same, with a user who asks one question and then quits. *)
Definition asking (first later : Response) : script :=
  mkScript (fun n => Ret n) (fun _ => Ret [quote_tool])
           (fun _ _ => Ret (mkCallToolResult (Some [TextContent "AAPL: $150.00"])))
           (fun n => match n with O => Ret first | S _ => Ret later end)
           (fun n => match n with O => Ret "What's Apple stock price?" | S _ => Ret "quit" end).

Definition final_answer : Response :=
  mkResponse "end_turn" [TextBlock "Apple is at $150.00"].

(** The catalogs offered by the completion requests of a trace. *)
Definition offered_catalogs (t : list event) : list (option (list ClaudeTool)) :=
  flat_map (fun ev => match ev with
                      | EvMessagesCreate rq _ => [rq_tools rq]
                      | _ => []
                      end) t.

(** A host that holds a session and no catalog yet, as in the middle of a
    connection attempt. *)
Definition new_host_with_session : host :=
  mkHost (Some 0%nat) [] true "http://localhost:8000/sse" 3 1 false.

(** A host that holds a session and a one-tool catalog. *)
Definition connected_host : host :=
  mkHost (Some 0%nat) [quote_tool] true "http://localhost:8000/sse" 3 1 false.

End Scenario.

(** * Properties *)

(** ** Strings *)

Section StringFacts.

Lemma prefix_true_iff (p s : string) :
  String.prefix p s = true <-> exists rest, s = p +:+ rest.
Proof.
  revert s. induction p as [|c p IH]; intros s.
  - split; [intros _; exists s; reflexivity | intros _; destruct s; reflexivity].
  - destruct s as [|d s]; simpl.
    + split; [discriminate | intros [rest H]; discriminate].
    + destruct (Ascii.ascii_dec c d) as [->|Hne].
      * rewrite IH. split; intros [rest H]; exists rest.
        -- now rewrite H.
        -- now injection H.
      * split; [discriminate | intros [rest H]; injection H; intros; congruence].
Qed.

Lemma contains_unfold (needle hay : string) :
  contains needle hay =
  if String.prefix needle hay then true
  else match hay with
       | EmptyString => false
       | String _ hay' => contains needle hay'
       end.
Proof. destruct hay; reflexivity. Qed.

(** [contains] is Python's substring test. *)
Lemma contains_true_iff (needle hay : string) :
  contains needle hay = true <-> exists a b, hay = a +:+ needle +:+ b.
Proof.
  induction hay as [|c hay IH]; rewrite contains_unfold.
  - destruct (String.prefix needle EmptyString) eqn:Hp.
    + apply prefix_true_iff in Hp as [rest Hp].
      split; [intros _; exists EmptyString, rest; exact Hp | reflexivity].
    + split; [discriminate|]. intros [a [b H]].
      destruct a; simpl in H; [|discriminate].
      assert (String.prefix needle EmptyString = true) as Hp'
        by (apply prefix_true_iff; exists b; exact H).
      congruence.
  - destruct (String.prefix needle (String c hay)) eqn:Hp.
    + apply prefix_true_iff in Hp as [rest Hp].
      split; [intros _; exists EmptyString, rest; exact Hp | reflexivity].
    + rewrite IH. split.
      * intros [a [b H]]. exists (String c a), b. simpl. now rewrite H.
      * intros [a [b H]]. destruct a as [|d a]; simpl in H.
        -- assert (String.prefix needle (String c hay) = true) as Hp'
             by (apply prefix_true_iff; exists b; exact H).
           congruence.
        -- injection H as _ H. exists a, b. exact H.
Qed.

Lemma append_cons (c : ascii) (s t : string) : String c s +:+ t = String c (s +:+ t).
Proof. reflexivity. Qed.

Lemma append_nil_r (s : string) : s +:+ EmptyString = s.
Proof.
  induction s as [|c s IH]; [reflexivity | now rewrite append_cons, IH].
Qed.

Lemma append_assoc (a b c : string) : (a +:+ b) +:+ c = a +:+ (b +:+ c).
Proof.
  induction a as [|x a IH]; [reflexivity | now rewrite !append_cons, IH].
Qed.

End StringFacts.

(** ** The tool server *)

Module ServerProps.

Import Server Scenario.

Lemma make_api_request_unconfigured (N : Net) (key : option string)
    (function : string) (kwargs : gmap string string) (w : world N) :
  truthy_str key = false ->
  kwargs !! "function" = None ->
  make_api_request N key function kwargs w =
  (Ret {[ "error" := VStr "Alpha Vantage API key not configured" ]}, w, []).
Proof.
  intros Hkey Hkw. unfold make_api_request, make_api_request_body. rewrite Hkw.
  destruct key as [k|]; simpl in *; [|reflexivity].
  destruct (String.eqb k EmptyString); [reflexivity | discriminate].
Qed.

(** C9. With the market-data key unset (or empty), [get_stock_quote]
    returns, for every symbol, the text
    "Error: Alpha Vantage API key not configured", which contains
    "not configured"; it makes no outbound request and leaves the network
    as it was. *)
Theorem get_stock_quote_not_configured (N : Net) (key : option string)
    (symbol : string) (w : world N) :
  truthy_str key = false ->
  exists text,
    get_stock_quote N key symbol w = (Ret text, w, []) /\
    text = "Error: Alpha Vantage API key not configured" /\
    contains "not configured" text = true.
Proof.
  intros Hkey. eexists. split; [|split].
  - unfold get_stock_quote.
    rewrite (make_api_request_unconfigured N key _ _ w Hkey)
      by (now apply lookup_singleton_ne).
    rewrite lookup_singleton_eq. reflexivity.
  - reflexivity.
  - apply contains_true_iff.
    exists "Error: Alpha Vantage API key ", EmptyString. reflexivity.
Qed.

Lemma get_stock_quote_not_configured_witness :
  truthy_str None = false /\
  exists text,
    get_stock_quote (fixed_net ∅) None "aapl" 0%nat = (Ret text, 0%nat, []) /\
    text = "Error: Alpha Vantage API key not configured" /\
    contains "not configured" text = true.
Proof.
  split; [reflexivity|].
  apply (get_stock_quote_not_configured (fixed_net ∅) None "aapl" 0%nat).
  reflexivity.
Defined.

Lemma format_matches_numbered (ms : list (gmap string string)) :
  forall result i,
    format_matches result i ms = result +:+ numbered_lines i ms.
Proof.
  induction ms as [|m ms IH]; intros result i; simpl.
  - now rewrite append_nil_r.
  - now rewrite IH, append_assoc.
Qed.

Lemma format_matches_listing (ms : list (gmap string string)) :
  forall result i,
    format_matches result i ms = result +:+ listing i ms.
Proof.
  induction ms as [|m ms IH]; intros result i; cbn [format_matches listing].
  - now rewrite append_nil_r.
  - rewrite IH, append_assoc. reflexivity.
Qed.

(** What [make_api_request] returns when a key is configured, no keyword
    argument is named [function] and the upstream API answers with an
    object. *)
Lemma make_api_request_answered (N : Net) (key : option string) (function : string)
    (kwargs : gmap string string) (w w' : world N) (data : gmap string value) :
  truthy_str key = true ->
  kwargs !! "function" = None ->
  (forall rq, requests_get N rq w = (HttpJson data, w')) ->
  exists rq, make_api_request N key function kwargs w = (Ret data, w', [rq]).
Proof.
  intros Hkey Hkw Hget. unfold make_api_request, make_api_request_body. rewrite Hkw.
  destruct key as [k|]; [|discriminate]. cbn in Hkey.
  destruct (String.eqb k EmptyString); [discriminate|].
  rewrite Hget. eauto.
Qed.

(** C10. When the upstream API answers a search with a list of best
    matches, the text [search_stocks] returns is the header followed by one
    line per entry of the first five matches, in upstream order and numbered
    from 1, and nothing else: at most five lines, and with more than five
    matches upstream exactly the lines 1 to 5 of the first five.  With an
    empty list it is the no-match text. *)
Theorem search_stocks_lists_first_five (N : Net) (key : option string)
    (query : string) (w w' : world N) (data : gmap string value)
    (ms : list (gmap string string)) :
  truthy_str key = true ->
  (forall rq, requests_get N rq w = (HttpJson data, w')) ->
  data !! "error" = None ->
  data !! "bestMatches" = Some (VList ms) ->
  let text := fst (fst (search_stocks N key query w)) in
  (ms = [] -> text = Ret ("No stocks found matching: " +:+ query)) /\
  (ms <> [] ->
   text = Ret ("Search results for '" +:+ query +:+ "':

" +:+ listing 1 (firstn 5 ms))) /\
  (length (firstn 5 ms) <= 5)%nat /\
  (forall m1 m2 m3 m4 m5 m6 rest,
      ms = m1 :: m2 :: m3 :: m4 :: m5 :: m6 :: rest ->
      text = Ret ("Search results for '" +:+ query +:+ "':

" +:+ listed_line 1 m1 +:+ listed_line 2 m2 +:+ listed_line 3 m3 +:+
           listed_line 4 m4 +:+ listed_line 5 m5)).
Proof.
  intros Hkey Hget Herr Hbest text.
  assert (({[ "keywords" := query ]} : gmap string string) !! "function" = None) as Hkw
    by (apply lookup_singleton_ne; discriminate).
  assert (ms <> [] ->
          text = Ret ("Search results for '" +:+ query +:+ "':

" +:+ listing 1 (firstn 5 ms))) as Hlisted.
  { intros Hms. subst text. unfold search_stocks.
    destruct (make_api_request_answered N key "SYMBOL_SEARCH" {[ "keywords" := query ]}
                w w' data Hkey Hkw Hget) as [rq ->].
    rewrite Herr, Hbest. cbv [from_option id].
    destruct ms as [|m ms]; [congruence|]. cbn [truthy negb fst].
    now rewrite format_matches_listing, !append_assoc. }
  split; [|split; [exact Hlisted|split]].
  - intros ->. subst text. unfold search_stocks.
    destruct (make_api_request_answered N key "SYMBOL_SEARCH" {[ "keywords" := query ]}
                w w' data Hkey Hkw Hget) as [rq ->].
    rewrite Herr, Hbest. reflexivity.
  - apply firstn_le_length.
  - intros m1 m2 m3 m4 m5 m6 rest ->. rewrite Hlisted by discriminate.
    cbn [firstn listing]. now rewrite append_nil_r.
Qed.

Lemma search_stocks_lists_first_five_witness :
  let text :=
    fst (fst (search_stocks (fixed_net {[ "bestMatches" := VList six_matches ]})
                            (Some "demo") "apple" 0%nat)) in
  (six_matches = [] -> text = Ret ("No stocks found matching: " +:+ "apple")) /\
  (six_matches <> [] ->
   text = Ret ("Search results for '" +:+ "apple" +:+ "':

" +:+ listing 1 (firstn 5 six_matches))) /\
  (length (firstn 5 six_matches) <= 5)%nat /\
  (forall m1 m2 m3 m4 m5 m6 rest,
      six_matches = m1 :: m2 :: m3 :: m4 :: m5 :: m6 :: rest ->
      text = Ret ("Search results for '" +:+ "apple" +:+ "':

" +:+ listed_line 1 m1 +:+ listed_line 2 m2 +:+ listed_line 3 m3 +:+
           listed_line 4 m4 +:+ listed_line 5 m5)).
Proof.
  apply (search_stocks_lists_first_five
           (fixed_net {[ "bestMatches" := VList six_matches ]}) (Some "demo") "apple"
           0%nat 1%nat {[ "bestMatches" := VList six_matches ]} six_matches).
  - reflexivity.
  - intros rq. reflexivity.
  - reflexivity.
  - reflexivity.
Defined.

(** Six matches upstream: the text lists the first five. *)
Example search_stocks_six_matches :
  fst (fst (search_stocks (fixed_net {[ "bestMatches" := VList six_matches ]})
                          (Some "demo") "apple" 0%nat)) =
  Ret "Search results for 'apple':

1. AAPL - Apple Inc
2. APLE - Apple Hospitality REIT Inc
3. AAPL34.SAO - Apple Inc
4. APC.FRK - Apple Inc
5. AGPL - Apple Green Holding Inc
".
Proof. reflexivity. Qed.

End ServerProps.

(** ** The host: weakest preconditions for the method monad *)

Module HostProps.

Import Host Scenario.

Section Wp.

Context {E : Env}.

Lemma wp_mono {A : Type} (m : M E A) h w (Q Q' : res A -> host -> world E -> list event -> Prop) :
  wp m h w Q -> (forall r h' w' t, Q r h' w' t -> Q' r h' w' t) -> wp m h w Q'.
Proof. unfold wp. auto. Qed.

Lemma wp_ret {A : Type} (a : A) h w (Q : res A -> host -> world E -> list event -> Prop) :
  Q (Ret a) h w [] -> wp (ret a) h w Q.
Proof. exact (fun H => H). Qed.

Lemma wp_raise {A : Type} (e : exn) h w
    (Q : res A -> host -> world E -> list event -> Prop) :
  Q (Raise e) h w [] -> wp (raise e) h w Q.
Proof. exact (fun H => H). Qed.

Lemma wp_lift {A : Type} (r : res A) h w
    (Q : res A -> host -> world E -> list event -> Prop) :
  Q r h w [] -> wp (lift r) h w Q.
Proof. exact (fun H => H). Qed.

Lemma wp_get {A : Type} (f : host -> A) h w
    (Q : res A -> host -> world E -> list event -> Prop) :
  Q (Ret (f h)) h w [] -> wp (get f) h w Q.
Proof. exact (fun H => H). Qed.

Lemma wp_modify (f : host -> host) h w
    (Q : res unit -> host -> world E -> list event -> Prop) :
  Q (Ret tt) (f h) w [] -> wp (modify f) h w Q.
Proof. exact (fun H => H). Qed.

Lemma wp_emit (ev : event) h w
    (Q : res unit -> host -> world E -> list event -> Prop) :
  Q (Ret tt) h w [ev] -> wp (emit ev) h w Q.
Proof. exact (fun H => H). Qed.

Lemma wp_call {A : Type} (f : world E -> res A * world E) (ev : res A -> event) h w Q :
  (forall r w', f w = (r, w') -> Q r h w' [ev r]) -> wp (call f ev) h w Q.
Proof.
  intros H. unfold wp, call. destruct (f w) as [r w'] eqn:Hf. now apply H.
Qed.

Lemma wp_bind {A B : Type} (m : M E A) (f : A -> M E B) h w Q :
  wp m h w (fun r h1 w1 t1 =>
    match r with
    | Ret a => wp (f a) h1 w1 (fun r2 h2 w2 t2 => Q r2 h2 w2 (t1 ++ t2))
    | Raise e => Q (Raise e) h1 w1 t1
    end) ->
  wp (bind m f) h w Q.
Proof.
  unfold wp, bind. destruct (m h w) as [[[r h1] w1] t1]. cbn.
  destruct r as [a|e]; [|exact (fun H => H)].
  destruct (f a h1 w1) as [[[r2 h2] w2] t2]. exact (fun H => H).
Qed.

Lemma wp_try_except {A : Type} (m : M E A) (handler : exn -> M E A) h w Q :
  wp m h w (fun r h1 w1 t1 =>
    match r with
    | Ret a => Q (Ret a) h1 w1 t1
    | Raise e => wp (handler e) h1 w1 (fun r2 h2 w2 t2 => Q r2 h2 w2 (t1 ++ t2))
    end) ->
  wp (try_except m handler) h w Q.
Proof.
  unfold wp, try_except. destruct (m h w) as [[[r h1] w1] t1]. cbn.
  destruct r as [a|e]; [exact (fun H => H)|].
  destruct (handler e h1 w1) as [[[r2 h2] w2] t2]. exact (fun H => H).
Qed.

Lemma wp_try_finally {A : Type} (m : M E A) (fin : host -> host) h w Q :
  wp m h w (fun r h1 w1 t1 => Q r (fin h1) w1 t1) ->
  wp (try_finally m fin) h w Q.
Proof.
  unfold wp, try_finally. destruct (m h w) as [[[r h1] w1] t1]. exact (fun H => H).
Qed.

End Wp.

(** One step of symbolic execution of a method. *)
Ltac wp_rule :=
  lazymatch goal with
  | |- wp (bind _ _) _ _ _ => apply wp_bind
  | |- wp (try_except _ _) _ _ _ => apply wp_try_except
  | |- wp (try_finally _ _) _ _ _ => apply wp_try_finally
  | |- wp (ret _) _ _ _ => apply wp_ret
  | |- wp (raise _) _ _ _ => apply wp_raise
  | |- wp (lift _) _ _ _ => apply wp_lift
  | |- wp (get _) _ _ _ => apply wp_get
  | |- wp (modify _) _ _ _ => apply wp_modify
  | |- wp (emit _) _ _ _ => apply wp_emit
  | |- wp (call _ _) _ _ _ =>
      let r := fresh "r" in let w' := fresh "w" in let Hc := fresh "Hcall" in
      apply wp_call; intros r w' Hc
  end.

Ltac host_simpl :=
  cbn [mcp_session available_tools exit_stack server_url max_retries base_delay
       proceed_without_tools set_mcp_session set_available_tools set_exit_stack
       set_proceed_without_tools].

Ltac wp_step := wp_rule; cbv beta iota; host_simpl.

(** Run the straight-line part of a method. *)
Ltac wp_steps := repeat wp_step.

(** Close a postcondition made of equations, event lists and class tests. *)
Ltac post_split := repeat lazymatch goal with |- _ /\ _ => split end.

Ltac post_done :=
  post_split;
  try solve [ auto
            | intros; discriminate
            | intros ? [= <-]; assumption
            | intros ? [= <-]; eauto
            | cbn [app]; repeat constructor ].

(** ** Startup *)

(** C8.  With the LLM key absent (or empty) the constructor raises
    [SystemExit(1)] and the process ends during startup, before anything is
    sent to the outside: the status the constructor asks for is 1.  The
    [finally: sys.exit(0)] of the entry point replaces that exception, so
    the exit status of the process is 0, not the nonzero status of the
    claim. *)
Theorem missing_llm_key_exit_status (E : Env) (key : option string) (fuel : nat)
    (w : world E) :
  truthy_str key = false ->
  init E key w = (Raise (SystemExit 1), w) /\
  main E key fuel w = (Raise (SystemExit 1), None, w, []) /\
  module_main E key fuel w = (Some 0%Z, w, []).
Proof.
  intros Hkey.
  assert (init E key w = (Raise (SystemExit 1), w)) as Hinit.
  { unfold init. destruct key as [k|]; [|reflexivity].
    simpl in Hkey. destruct (String.eqb k EmptyString); [reflexivity | discriminate]. }
  assert (main E key fuel w = (Raise (SystemExit 1), None, w, [])) as Hmain.
  { unfold main. rewrite Hinit. reflexivity. }
  repeat split; [exact Hinit | exact Hmain |].
  unfold module_main. rewrite Hmain. reflexivity.
Qed.

Lemma missing_llm_key_exit_status_witness :
  truthy_str None = false /\
  init (scripted unreachable) None start = (Raise (SystemExit 1), start) /\
  main (scripted unreachable) None 5 start = (Raise (SystemExit 1), None, start, []) /\
  module_main (scripted unreachable) None 5 start = (Some 0%Z, start, []).
Proof.
  split; [reflexivity|].
  apply (missing_llm_key_exit_status (scripted unreachable) None 5 start).
  reflexivity.
Defined.

(** With the key absent the exit status of the process is not a nonzero
    one. *)
Remark missing_llm_key_status_is_not_nonzero :
  ~ (exists status : Z,
        fst (fst (module_main (scripted unreachable) None 5 start)) = Some status /\
        status <> 0%Z).
Proof.
  intros [status [Hrun Hnz]]. vm_compute in Hrun.
  injection Hrun as <-. now apply Hnz.
Qed.

(** ** Tool invocation *)

(** C1, as amended.  When the tool call raises an exception [e] that is an
    [Exception], [call_mcp_tool] returns a string.  An
    [asyncio.TimeoutError] is caught first: the string is the timeout
    message and the host is unchanged, although its class name contains the
    keyword "timeout".  For any other [e], if the lowered class name or
    message contains one of the ten keywords, the catalog is empty
    afterwards and the string is the server-unavailable message; otherwise
    the string names the error class and the host is unchanged. *)
Theorem call_mcp_tool_on_exception (E : Env) (h : host) (w w' : world E) (c : conn)
    (tool_name : string) (arguments : json) (e : exn) :
  mcp_session h = Some c ->
  call_tool E c tool_name arguments w = (Raise e, w') ->
  is_Exception e = true ->
  exists text h',
    call_mcp_tool E tool_name arguments h w =
      (Ret text, h', w', [EvCallTool c tool_name arguments (Raise e)]) /\
    (is_TimeoutError e = true ->
       text = tool_timeout_message tool_name /\ h' = h) /\
    (is_TimeoutError e = false -> is_connection_error E e = true ->
       text = server_unavailable_message /\ available_tools h' = []) /\
    (is_TimeoutError e = false -> is_connection_error E e = false ->
       text = "Error calling tool " +:+ tool_name +:+ ": " +:+ exn_name e /\ h' = h).
Proof.
  intros Hs Hc He.
  unfold call_mcp_tool, try_except, bind, get, call. rewrite Hs, Hc, He.
  destruct (is_TimeoutError e) eqn:Ht.
  - do 2 eexists. split; [reflexivity|].
    repeat split; intros; try discriminate; reflexivity.
  - destruct (is_connection_error E e) eqn:Hk.
    + do 2 eexists. split; [reflexivity|].
      repeat split; intros; try discriminate; reflexivity.
    + do 2 eexists. split; [reflexivity|].
      repeat split; intros; try discriminate; reflexivity.
Qed.

Lemma call_mcp_tool_on_exception_witness :
  exists text h',
    call_mcp_tool (scripted unreachable) "get_stock_quote" aapl connected_host start =
      (Ret text, h', start, [EvCallTool 0%nat "get_stock_quote" aapl (Raise ConnectError)]) /\
    (is_TimeoutError ConnectError = true ->
       text = tool_timeout_message "get_stock_quote" /\ h' = connected_host) /\
    (is_TimeoutError ConnectError = false ->
     is_connection_error (scripted unreachable) ConnectError = true ->
       text = server_unavailable_message /\ available_tools h' = []) /\
    (is_TimeoutError ConnectError = false ->
     is_connection_error (scripted unreachable) ConnectError = false ->
       text = "Error calling tool " +:+ "get_stock_quote" +:+ ": " +:+ exn_name ConnectError /\
       h' = connected_host).
Proof.
  apply (call_mcp_tool_on_exception (scripted unreachable) connected_host start start
           0%nat "get_stock_quote" aapl ConnectError); reflexivity.
Defined.

(** C1 as stated fails on a timeout: the class name "TimeoutError" matches
    the keyword "timeout", yet the catalog is kept and the string returned
    is the timeout message. *)
Lemma timeout_matches_keyword_but_keeps_catalog :
  let out := call_mcp_tool (scripted timing_out) "get_stock_quote" aapl connected_host start in
  call_tool (scripted timing_out) 0%nat "get_stock_quote" aapl start = (Raise TimeoutError, start) /\
  is_connection_error (scripted timing_out) TimeoutError = true /\
  result_of out = Ret (tool_timeout_message "get_stock_quote") /\
  available_tools (host_of out) = [quote_tool] /\
  ~ (available_tools (host_of out) = [] /\ result_of out = Ret server_unavailable_message).
Proof.
  cbv zeta. repeat split; try reflexivity.
  intros [Hcat _]. vm_compute in Hcat. discriminate.
Qed.

(** ** Catalog discovery *)

(** C5.  Every outcome of the listing other than a non-empty list -- an
    empty list, a timeout, any other [Exception] -- makes [discover_tools]
    return [False] after that one listing.  An empty list is stored; after
    an exception the host is left as it was.  On a host whose catalog is
    empty, as it is wherever the host calls [discover_tools] (the
    constructor leaves it empty, and the shell reconnects only when it is),
    the catalog is therefore empty afterwards and the host unchanged: an
    empty listing is treated exactly like a failed one. *)
Theorem discover_tools_failure (E : Env) (h : host) (w w' : world E) (c : conn)
    (r : res (list Tool)) :
  mcp_session h = Some c ->
  list_tools E c w = (r, w') ->
  (r = Ret [] \/ exists e, r = Raise e /\ is_Exception e = true) ->
  discover_tools E h w =
    (Ret false,
     match r with Ret _ => set_available_tools [] h | Raise _ => h end,
     w', [EvListTools c r]) /\
  (available_tools h = [] ->
   host_of (discover_tools E h w) = h /\
   available_tools (host_of (discover_tools E h w)) = []).
Proof.
  intros Hs Hl Hr.
  assert (discover_tools E h w =
            (Ret false,
             match r with Ret _ => set_available_tools [] h | Raise _ => h end,
             w', [EvListTools c r])) as Hrun.
  { unfold discover_tools, try_except, bind, get, call, modify. rewrite Hs, Hl.
    destruct Hr as [-> | [e [-> He]]]; [reflexivity|].
    rewrite He. destruct (is_TimeoutError e); reflexivity. }
  split; [exact Hrun|]. intros Hempty. rewrite Hrun. cbn [host_of fst snd].
  assert (set_available_tools [] h = h) as Hsame
    by (destruct h; simpl in *; subst; reflexivity).
  destruct r; rewrite ?Hsame; auto.
Qed.

Lemma discover_tools_failure_witness :
  (discover_tools (scripted timing_out) new_host_with_session start =
     (Ret false, new_host_with_session, mkCounters 0 1 0 0,
      [EvListTools 0%nat (Raise TimeoutError)]) /\
   available_tools
     (host_of (discover_tools (scripted timing_out) new_host_with_session start)) = []) /\
  (discover_tools (scripted empty_server) new_host_with_session start =
     (Ret false, set_available_tools [] new_host_with_session, mkCounters 0 1 0 0,
      [EvListTools 0%nat (Ret [])]) /\
   available_tools
     (host_of (discover_tools (scripted empty_server) new_host_with_session start)) = []).
Proof.
  split.
  - destruct (discover_tools_failure (scripted timing_out) new_host_with_session start
                (mkCounters 0 1 0 0) 0%nat (Raise TimeoutError)) as [Hrun Hempty].
    + reflexivity.
    + reflexivity.
    + right. exists TimeoutError. split; reflexivity.
    + split; [exact Hrun|]. apply Hempty. reflexivity.
  - destruct (discover_tools_failure (scripted empty_server) new_host_with_session start
                (mkCounters 0 1 0 0) 0%nat (Ret [])) as [Hrun Hempty].
    + reflexivity.
    + reflexivity.
    + now left.
    + split; [exact Hrun|]. apply Hempty. reflexivity.
Defined.

(** ** Conversation *)

Lemma not_Exception_not_Timeout (e : exn) :
  is_Exception e = false -> is_TimeoutError e = false.
Proof. unfold is_Exception, is_TimeoutError. now destruct (exn_class_of e). Qed.

(** A tool invocation asks the server at most once, leaves the host as it
    was or with its catalog cleared, and raises nothing that is an
    [Exception]. *)
Lemma call_mcp_tool_post (E : Env) (tool_name : string) (arguments : json) h w :
  wp (call_mcp_tool E tool_name arguments) h w (fun r h' _ t =>
    (h' = h \/ h' = set_available_tools [] h) /\
    Forall (fun ev => is_tool_call ev = true) t /\
    (forall e, r = Raise e -> is_Exception e = false)).
Proof.
  assert (forall e w1 t1,
    Forall (fun ev => is_tool_call ev = true) t1 ->
    wp (if is_TimeoutError e then ret (tool_timeout_message tool_name)
        else if is_Exception e then
          if is_connection_error E e then
            modify (set_available_tools []) ;; ret server_unavailable_message
          else ret ("Error calling tool " +:+ tool_name +:+ ": " +:+ exn_name e)
        else raise e) h w1
       (fun r2 h2 (_ : world E) t2 =>
          (h2 = h \/ h2 = set_available_tools [] h) /\
          Forall (fun ev => is_tool_call ev = true) (t1 ++ t2) /\
          (forall e0, r2 = Raise e0 -> is_Exception e0 = false))) as Hhandler.
  { intros e w1 t1 Ht1.
    destruct (is_TimeoutError e) eqn:Ht; [|destruct (is_Exception e) eqn:He].
    - wp_steps. rewrite app_nil_r. post_done.
    - destruct (is_connection_error E e); wp_steps; rewrite ?app_nil_r; post_done.
    - wp_steps. rewrite app_nil_r. post_done. }
  unfold call_mcp_tool. wp_steps.
  destruct (mcp_session h) as [c|].
  - wp_steps. destruct r as [result|e].
    + destruct (result_content result) as [[|first rest]|].
      * wp_steps. post_done.
      * wp_steps. destruct (mcp_content_text first) as [text|e].
        -- post_done.
        -- apply Hhandler. repeat constructor.
      * wp_steps. post_done.
    + apply Hhandler. repeat constructor.
  - wp_steps. apply Hhandler. constructor.
Qed.

Ltac wp_use lem :=
  eapply wp_mono; [apply lem | cbv beta; intros ? ? ? ? ?].

Lemma execute_tool_calls_post (E : Env) (blocks : list ContentBlock) :
  forall messages h w,
    wp (execute_tool_calls E blocks messages) h w (fun r h' _ t =>
      (h' = h \/ h' = set_available_tools [] h) /\
      Forall (fun ev => is_tool_call ev = true) t /\
      (forall e, r = Raise e -> is_Exception e = false)).
Proof.
  induction blocks as [|block rest IH]; intros messages h w; cbn [execute_tool_calls].
  - wp_steps. post_done.
  - destruct block as [text|id name input].
    + apply IH.
    + wp_step. wp_use call_mcp_tool_post.
      destruct H as (Hh & Ht & Hr). destruct r as [tool_result|e].
      * wp_use IH. destruct H as (Hh' & Ht' & Hr'). post_split.
        -- destruct Hh as [->| ->], Hh' as [->| ->]; auto.
        -- apply Forall_app; auto.
        -- exact Hr'.
      * post_done.
Qed.

Lemma offers_formatted (h h' : host) (rq : LLMRequest) :
  h' = h \/ h' = set_available_tools [] h ->
  rq_tools rq = Some (format_tools_for_claude h') ->
  offers h rq.
Proof.
  intros [->| ->] Hrq; unfold offers.
  - destruct (available_tools h) as [|tool tools] eqn:Htools.
    + right; left. rewrite Hrq. unfold format_tools_for_claude. now rewrite Htools.
    + right; right. split; [discriminate | exact Hrq].
  - right; left. exact Hrq.
Qed.

Lemma handle_tool_use_post (E : Env) (response : Response) (messages : list Message) h w :
  wp (handle_tool_use E response messages) h w (fun r h' _ t =>
    (h' = h \/ h' = set_available_tools [] h) /\
    (forall e, r = Raise e -> is_Exception e = false) /\
    exists calls,
      Forall (fun ev => is_tool_call ev = true) calls /\
      (t = calls \/
       exists rq2 r2,
         offers h rq2 /\ t = calls ++ [EvMessagesCreate rq2 r2] /\ returns_text_of r r2)).
Proof.
  assert (forall e h1 w1,
    wp (if is_TimeoutError e then ret "Tool execution timed out"
        else if is_Exception e then ret ("Error during tool execution: " +:+ exn_name e)
        else raise e) h1 w1
       (fun r2 h2 (_ : world E) t2 =>
          h2 = h1 /\ t2 = [] /\ (forall e0, r2 = Raise e0 -> is_Exception e0 = false) /\
          (is_Exception e = true -> exists text, r2 = Ret text) /\
          (is_TimeoutError e = false -> is_Exception e = true ->
           r2 = Ret ("Error during tool execution: " +:+ exn_name e)))) as Hhandler.
  { intros e h1 w1.
    destruct (is_TimeoutError e) eqn:Ht; [|destruct (is_Exception e) eqn:He];
      wp_steps; post_split; eauto; try discriminate.
    intros e0 [= <-]. exact He. }
  unfold handle_tool_use. wp_step. wp_step.
  wp_use execute_tool_calls_post. destruct H as (Hh & Ht & Hr).
  destruct r as [messages'|e].
  - wp_steps. destruct r as [final_response|e].
    + wp_steps. destruct (first_text final_response) as [text|e] eqn:Hfirst.
      * rewrite ?app_nil_r. post_split; auto; try discriminate.
        exists t. split; [exact Ht|]. right. do 2 eexists. split; [|split; [reflexivity|]].
        -- eapply offers_formatted; [exact Hh | reflexivity].
        -- unfold returns_text_of. unfold first_text in Hfirst.
           destruct (content final_response) as [|[text'|id name input] rest];
             cbn in Hfirst; congruence.
      * wp_use Hhandler. destruct H as (-> & -> & Hr0 & _ & Hfinal).
        rewrite ?app_nil_r. post_split; auto.
        exists t. split; [exact Ht|]. right. do 2 eexists. split; [|split; [reflexivity|]].
        -- eapply offers_formatted; [exact Hh | reflexivity].
        -- unfold returns_text_of. unfold first_text in Hfirst.
           destruct (content final_response) as [|[text'|id name input] rest];
             cbn in Hfirst; try discriminate.
           all: injection Hfirst as <-; exact (Hfinal eq_refl eq_refl).
    + wp_use Hhandler. destruct H as (-> & -> & Hr0 & _).
      rewrite ?app_nil_r. post_split; auto.
      exists t. split; [exact Ht|]. right. do 2 eexists. split; [|split; [reflexivity|]].
      * eapply offers_formatted; [exact Hh | reflexivity].
      * exact I.
  - wp_use Hhandler. destruct H as (-> & -> & Hr0 & _).
    rewrite ?app_nil_r. post_split; auto.
    exists t. split; [exact Ht|]. now left.
Qed.

Lemma offers_first (h : host) (messages : list Message) :
  offers h (mkLLMRequest model_id 1000
              (if is_nil (format_tools_for_claude h) then None
               else Some (format_tools_for_claude h)) messages).
Proof.
  unfold offers, format_tools_for_claude.
  destruct (available_tools h) as [|tool tools]; cbn.
  - now left.
  - right; right. split; [discriminate | reflexivity].
Qed.

(** One user turn: the events have the shape of [turn_shape], the host is
    left as it was or with its catalog cleared, and nothing that is an
    [Exception] is raised. *)
Lemma get_claude_response_post (E : Env) (user_message : string) h w :
  wp (get_claude_response E user_message) h w (fun r h' _ t =>
    (h' = h \/ h' = set_available_tools [] h) /\
    (forall e, r = Raise e -> is_Exception e = false) /\
    turn_shape h t (returns_text_of r)).
Proof.
  assert (forall e h1 w1,
    wp (if is_TimeoutError e then ret "Claude request timed out after 30 seconds"
        else if is_Exception e then
          if contains "authentication" (lower (unicode E) (exn_name e))
          then ret "Authentication error with Claude API. Please check your ANTHROPIC_API_KEY."
          else ret ("Error communicating with Claude: " +:+ exn_name e)
        else raise e) h1 w1
       (fun r2 h2 (_ : world E) t2 =>
          h2 = h1 /\ t2 = [] /\ (forall e0, r2 = Raise e0 -> is_Exception e0 = false) /\
          (is_Exception e = false -> r2 = Raise e))) as Hhandler.
  { intros e h1 w1.
    destruct (is_TimeoutError e) eqn:Ht; [|destruct (is_Exception e) eqn:He].
    - wp_steps. post_split; auto; try discriminate.
      intros He. apply not_Exception_not_Timeout in He. congruence.
    - destruct (contains "authentication" (lower (unicode E) (exn_name e)));
        wp_steps; post_split; auto; discriminate.
    - wp_steps. post_split; auto. intros e0 [= <-]. exact He. }
  unfold get_claude_response. wp_steps.
  set (rq1 := mkLLMRequest _ _ _ _).
  assert (offers h rq1) as Hoffer by apply offers_first.
  destruct r as [response|e].
  - wp_steps. destruct (first_text response) as [text|e] eqn:Hfirst.
    + destruct (String.eqb (stop_reason response) "tool_use" &&
                negb (is_nil (format_tools_for_claude h))).
      * wp_use handle_tool_use_post. destruct H as (Hh & Hr & calls & Hcalls & Ht).
        destruct r as [answer|e].
        -- post_split; auto; try discriminate.
           exists rq1, (Ret response), calls. split; [exact Hoffer|]. split; [exact Hcalls|].
           destruct Ht as [->|(rq2 & r2 & Ho & -> & Hfin)]; [now left|].
           right. exists rq2, r2. auto.
        -- pose proof (Hr e eq_refl) as He.
           wp_use Hhandler. destruct H as (-> & -> & Hr0 & Hre).
           rewrite (Hre He), ?app_nil_r. post_split; auto.
           exists rq1, (Ret response), calls. split; [exact Hoffer|]. split; [exact Hcalls|].
           destruct Ht as [->|(rq2 & r2 & Ho & -> & Hfin)]; [now left|].
           right. exists rq2, r2. auto.
      * wp_steps. post_split; auto; try discriminate.
        exists rq1, (Ret response), []. split; [exact Hoffer|]. split; [constructor|]. now left.
    + wp_use Hhandler. destruct H as (-> & -> & Hr0 & _). post_split; auto.
      exists rq1, (Ret response), []. split; [exact Hoffer|]. split; [constructor|]. now left.
  - wp_use Hhandler. destruct H as (-> & -> & Hr0 & _). post_split; auto.
    exists rq1, (Raise e), []. split; [exact Hoffer|]. split; [constructor|]. now left.
Qed.

Lemma second_request_is_last (calls middle after : list event) (x y : event) :
  Forall (fun ev => is_tool_call ev = true) calls ->
  is_tool_call y = false ->
  calls ++ [x] = middle ++ y :: after ->
  middle = calls /\ y = x /\ after = [].
Proof.
  revert middle. induction calls as [|ev calls IH]; intros middle Hcalls Hy Heq.
  - destruct middle as [|m middle]; cbn in Heq.
    + now injection Heq as <- <-.
    + injection Heq as _ Heq. now destruct middle.
  - inversion Hcalls as [|? ? Hev Hrest]; subst.
    destruct middle as [|m middle]; cbn in Heq.
    + injection Heq as <- _. congruence.
    + injection Heq as <- Heq. destruct (IH middle Hrest Hy Heq) as (-> & -> & ->).
      auto.
Qed.

Lemma no_request_among_calls (calls middle after : list event) (y : event) :
  Forall (fun ev => is_tool_call ev = true) calls ->
  is_tool_call y = false ->
  calls <> middle ++ y :: after.
Proof.
  intros Hcalls Hy ->. apply Forall_app in Hcalls as [_ Hcalls].
  inversion Hcalls; subst. congruence.
Qed.

(** C7.  In a user turn in which a second completion request is answered
    with a response, only tool calls lie between the two requests and
    nothing follows the second: no tool is invoked after it, whatever its
    stop reason.  The turn returns the text of the first block of the
    second response when that is a text block.  When the second response
    begins with a tool-use block, as one that signals tool use again may,
    the turn does not return its text: [final_response.content[0].text]
    raises [AttributeError] and the error text of [handle_tool_use] is
    returned. *)
Theorem second_response_is_final (E : Env) (user_message : string) (h : host)
    (w : world E) (rq1 rq2 : LLMRequest) (r1 : res Response) (second : Response)
    (middle after : list event) :
  let out := get_claude_response E user_message h w in
  trace_of out =
    EvMessagesCreate rq1 r1 :: middle ++ EvMessagesCreate rq2 (Ret second) :: after ->
  after = [] /\
  Forall (fun ev => is_tool_call ev = true) middle /\
  result_of out =
    Ret match content second with
        | TextBlock text :: _ => text
        | ToolUseBlock _ _ _ :: _ => "Error during tool execution: AttributeError"
        | [] => "Error during tool execution: IndexError"
        end.
Proof.
  cbv zeta.
  pose proof (get_claude_response_post E user_message h w) as Hpost.
  unfold wp in Hpost. destruct Hpost as (_ & _ & rq & r & calls & _ & Hcalls & Ht).
  intros Htrace. destruct Ht as [Ht|(rq' & r2 & _ & Ht & Hfin)]; rewrite Ht in Htrace.
  - injection Htrace as _ _ Htrace.
    now apply no_request_among_calls in Htrace.
  - injection Htrace as _ _ Htrace.
    apply second_request_is_last in Htrace as (-> & [= <- <-] & ->);
      [|exact Hcalls|reflexivity].
    split; [reflexivity|]. split; [exact Hcalls|].
    unfold returns_text_of in Hfin.
    destruct (content second) as [|[text|id name input] rest]; exact Hfin.
Qed.

Lemma second_response_is_final_witness :
  let out := get_claude_response
               (scripted (answering announced_quote_request quote_request))
               "What's Apple stock price?" connected_host start in
  @nil event = [] /\
  Forall (fun ev => is_tool_call ev = true)
    [EvCallTool 0%nat "get_stock_quote" aapl
       (Ret (mkCallToolResult (Some [TextContent "AAPL: $150.00"])))] /\
  result_of out =
    Ret match content quote_request with
        | TextBlock text :: _ => text
        | ToolUseBlock _ _ _ :: _ => "Error during tool execution: AttributeError"
        | [] => "Error during tool execution: IndexError"
        end.
Proof.
  refine (second_response_is_final
            (scripted (answering announced_quote_request quote_request))
            "What's Apple stock price?" connected_host start _ _ _ quote_request
            [EvCallTool 0%nat "get_stock_quote" aapl
               (Ret (mkCallToolResult (Some [TextContent "AAPL: $150.00"])))]
            [] _).
  reflexivity.
Defined.

(** A second response that asks for a tool again and begins with the
    tool-use block: the turn returns an error text, after one tool call. *)
Example second_tool_use_request_without_text :
  let out := get_claude_response
               (scripted (answering announced_quote_request quote_request))
               "What's Apple stock price?" connected_host start in
  result_of out = Ret "Error during tool execution: AttributeError" /\
  map is_tool_call (trace_of out) = [false; true; false] /\
  map is_completion (trace_of out) = [true; false; true].
Proof. cbv zeta. repeat split; reflexivity. Qed.

(** A second response that asks for a tool again: its text is the answer
    of the turn and the tool is called once. *)
Example second_tool_use_request_is_answered_as_text :
  let out := get_claude_response
               (scripted (answering announced_quote_request announced_quote_request))
               "What's Apple stock price?" connected_host start in
  result_of out = Ret "I will look that up." /\
  map is_tool_call (trace_of out) = [false; true; false] /\
  map is_completion (trace_of out) = [true; false; true].
Proof. cbv zeta. repeat split; reflexivity. Qed.

(** C6, the failing case.  When the first response begins with a tool-use
    block, the [print] of [response.content[0].text] raises
    [AttributeError] before the stop reason is looked at: the turn returns
    the error text and no tool is invoked, whatever the stop reason and the
    catalog. *)
Theorem tool_use_block_first_is_not_executed (E : Env) (user_message : string)
    (h : host) (w w' : world E) (response : Response)
    (id name : string) (input : json) (rest : list ContentBlock) :
  (forall rq, messages_create E rq w = (Ret response, w')) ->
  content response = ToolUseBlock id name input :: rest ->
  exists rq,
    get_claude_response E user_message h w =
      (Ret "Error communicating with Claude: AttributeError", h, w',
       [EvMessagesCreate rq (Ret response)]).
Proof.
  intros Hllm Hcontent. eexists.
  unfold get_claude_response, try_except, bind, get, call, lift.
  rewrite Hllm. unfold first_text. rewrite Hcontent. reflexivity.
Qed.

Lemma tool_use_block_first_is_not_executed_witness :
  exists rq,
    get_claude_response (scripted (answering quote_request quote_request))
      "What's Apple stock price?" connected_host start =
      (Ret "Error communicating with Claude: AttributeError", connected_host,
       mkCounters 0 0 1 0, [EvMessagesCreate rq (Ret quote_request)]).
Proof.
  apply (tool_use_block_first_is_not_executed
           (scripted (answering quote_request quote_request))
           "What's Apple stock price?" connected_host start (mkCounters 0 0 1 0)
           quote_request "toolu_01" "get_stock_quote" aapl []).
  - intros rq. reflexivity.
  - reflexivity.
Defined.

(** ** Connection management *)

(** Symbolic execution through the branches of a method. *)
Ltac wp_auto :=
  repeat first
    [ wp_step
    | lazymatch goal with
      | |- wp (if ?b then _ else _) _ _ _ => destruct b eqn:?
      | |- wp (match ?x with _ => _ end) _ _ _ => destruct x eqn:?
      | |- match ?x with _ => _ end => destruct x eqn:?
      end ].

Ltac trace_done :=
  cbn [app schedule List.filter is_schedule_event is_connection_event
       discoveries raised_exceptions flat_map discovery raised];
  first [ reflexivity | solve [repeat constructor] | solve [auto 10] ].

Lemma cleanup_connections_post (E : Env) h w :
  wp (cleanup_connections E) h w (fun r h' _ t =>
    h' = set_mcp_session None (set_exit_stack false h) /\
    Forall (fun ev => is_connection_event ev = true) t /\
    schedule t = [] /\ discoveries t = [] /\
    forall e, r = Raise e -> is_Exception e = false /\ In e (raised_exceptions t)).
Proof.
  unfold cleanup_connections. wp_auto; post_split; try trace_done; try discriminate.
  intros e' [= <-]. split; [assumption | trace_done].
Qed.

Lemma ends_with_discovery_cons (ev : event) (t : list event) (h' : host) :
  ends_with_discovery t h' -> ends_with_discovery (ev :: t) h'.
Proof.
  intros (pre & c & tools & -> & Hne & Htools & Hs).
  exists (ev :: pre), c, tools. auto.
Qed.

Ltac ends_with_discovery_tac :=
  first [ solve [ eexists [], _, _; cbn; repeat split; discriminate ]
        | apply ends_with_discovery_cons; ends_with_discovery_tac ].

Ltac attempt_leaf :=
  unfold attempt_outcome, same_config, catalog_kept_or_cleared;
  post_split;
  try trace_done;
  try solve [ cbn [app]; ends_with_discovery_tac ];
  try solve [ cbn; auto ];
  try (apply not_Exception_not_Timeout; assumption).

Lemma guarded_attempt_post (E : Env) (attempt : Z) h w :
  wp (guarded_attempt E attempt) h w (fun r h' _ t =>
    same_config h h' /\
    Forall (fun ev => is_connection_event ev = true) t /\
    schedule t = [EvAttempt attempt] /\
    attempt_outcome h r h' t).
Proof.
  unfold guarded_attempt, connection_attempt, cleanup_connections, discover_tools.
  wp_auto; attempt_leaf.
Qed.

Lemma after_failed_attempt_post (E : Env) (attempt : Z) h w :
  wp (after_failed_attempt E attempt) h w (fun r h' _ t =>
    h' = set_mcp_session None (set_exit_stack false h) /\
    Forall (fun ev => is_connection_event ev = true) t /\
    discoveries t = [] /\
    match r with
    | Ret _ =>
        schedule t =
          if (attempt <? max_retries h)%Z
          then [EvSleep (to_float (base_delay h * inject_Z (2 ^ (attempt - 1)))%Q)]
          else []
    | Raise e =>
        schedule t = [] /\
        ((is_Exception e = false /\ In e (raised_exceptions t)) \/
         (e = delay_overflow /\ (1025 <= attempt < max_retries h)%Z))
    end).
Proof.
  unfold after_failed_attempt, cleanup_connections, backoff_delay.
  destruct (1024 <=? attempt - 1)%Z eqn:Hbig.
  all: wp_auto; post_split; try trace_done; try assumption.
  all: try solve [left; split; [assumption | trace_done]].
  all: try solve [right; split; [reflexivity | lia]].
Qed.

Lemma schedule_app (t1 t2 : list event) : schedule (t1 ++ t2) = schedule t1 ++ schedule t2.
Proof. apply List.filter_app. Qed.

Lemma discoveries_app (t1 t2 : list event) :
  discoveries (t1 ++ t2) = discoveries t1 ++ discoveries t2.
Proof. apply flat_map_app. Qed.

Lemma raised_exceptions_app (t1 t2 : list event) :
  raised_exceptions (t1 ++ t2) = raised_exceptions t1 ++ raised_exceptions t2.
Proof. apply flat_map_app. Qed.

Lemma ends_with_discovery_app (t1 t2 : list event) (h' : host) :
  ends_with_discovery t2 h' -> ends_with_discovery (t1 ++ t2) h'.
Proof.
  intros (pre & c & tools & -> & Hne & Htools & Hs).
  exists (t1 ++ pre), c, tools. rewrite <- app_assoc. auto.
Qed.

Lemma same_config_cleared (h h' : host) :
  same_config h h' -> same_config h (set_mcp_session None (set_exit_stack false h')).
Proof. exact (fun H => H). Qed.

Lemma same_config_trans (h1 h2 h3 : host) :
  same_config h1 h2 -> same_config h2 h3 -> same_config h1 h3.
Proof.
  unfold same_config. intros (A1 & A2 & A3 & A4) (B1 & B2 & B3 & B4).
  repeat split; congruence.
Qed.

Lemma catalog_kept_or_cleared_trans (h1 h2 h3 : host) :
  catalog_kept_or_cleared h1 h2 -> catalog_kept_or_cleared h2 h3 ->
  catalog_kept_or_cleared h1 h3.
Proof.
  unfold catalog_kept_or_cleared. intros [A|A] [B|B]; rewrite ?B, ?A; auto.
Qed.

(** The loop over the attempts [a, a+1, ..., a+n-1], the last of which is
    attempt [max_retries]: [k] attempts are made, on the prescribed
    schedule; all [n] of them when the loop returns [False]. *)
Lemma connect_attempts_post (E : Env) (n : nat) :
  forall (a : nat) h w,
    (n = 0%nat \/ Z.of_nat (a + n) = (max_retries h + 1)%Z) ->
    wp (connect_attempts E (map Z.of_nat (seq a n))) h w (fun r h' _ t =>
      same_config h h' /\
      Forall (fun ev => is_connection_event ev = true) t /\
      connect_outcome h r h' t /\
      exists k,
        (k <= n)%nat /\ ((1 <= n)%nat -> (1 <= k)%nat) /\
        (r = Ret false -> k = n) /\
        schedule t = schedule_from (base_delay h) (Z.of_nat a) k).
Proof.
  induction n as [|n IH]; intros a h w Hlast; cbn [seq map connect_attempts].
  - wp_steps. post_split; try trace_done; try (repeat split; reflexivity).
    exists 0%nat. repeat split; auto; lia.
  - wp_step. wp_use guarded_attempt_post. destruct H as (Hcfg & Hconn & Hsched & Hout).
    destruct r as [[|]|e].
    + wp_steps. rewrite app_nil_r. post_split; auto.
      exists 1%nat. repeat split; auto; try lia. discriminate.
    + wp_step. wp_use after_failed_attempt_post.
      destruct H as (Hh0 & Hconn0 & Hdisc0 & Hr0). destruct r as [[]|e].
      * assert (n = 0%nat \/ Z.of_nat (S a + n) = (max_retries h'0 + 1)%Z) as Hlast'.
        { destruct Hlast as [|Hlast]; [discriminate|]. right.
          subst h'0. cbn. destruct Hcfg as (_ & -> & _). lia. }
        wp_use (IH (S a) h'0 w'0 Hlast').
        destruct H as (Hcfg1 & Hconn1 & Hout1 & k & Hk & Hk1 & Hkn & Hsched1).
        assert (catalog_kept_or_cleared h h'0) as Hcat
          by (subst h'0; destruct Hout as [Hcat _]; exact Hcat).
        assert (max_retries h'0 = max_retries h) as Hmax0
          by (subst h'0; destruct Hcfg as (_ & Hm & _); exact Hm).
        post_split.
        -- eapply same_config_trans; [|exact Hcfg1]. subst h'0.
           now apply same_config_cleared.
        -- repeat (apply Forall_app; split); auto.
        -- destruct r as [[|]|e]; cbn in Hout1 |- *.
           ++ now do 2 apply ends_with_discovery_app.
           ++ destruct Hout1 as [Hc1 Hd1]. destruct Hout as [_ Hd]. split.
              ** eapply catalog_kept_or_cleared_trans; eauto.
              ** rewrite !discoveries_app, Hd, Hdisc0, Hd1. reflexivity.
           ++ destruct Hout1 as (Hc1 & Hwhy). split.
              ** eapply catalog_kept_or_cleared_trans; eauto.
              ** destruct Hwhy as [(He & Hin) | (-> & Hd1 & Hbig)].
                 --- left. split; [exact He|].
                     rewrite !raised_exceptions_app. apply in_or_app. right.
                     apply in_or_app. now right.
                 --- right. split; [reflexivity|]. split; [|lia].
                     destruct Hout as [_ Hd].
                     rewrite !discoveries_app, Hd, Hdisc0, Hd1. reflexivity.
        -- exists (S k). split; [lia|]. split; [lia|]. split; [intros Hf; f_equal; auto|].
           rewrite !schedule_app, Hsched, Hr0, Hsched1.
           assert (base_delay h'0 = base_delay h) as ->
             by (subst h'0; destruct Hcfg as (_ & _ & Hb & _); exact Hb).
           assert (max_retries h' = max_retries h) as Hmax
             by (destruct Hcfg as (_ & Hm & _); exact Hm).
           rewrite Nat2Z.inj_succ, <- Z.add_1_r in Hsched1 |- *.
           destruct Hlast as [|Hlast]; [discriminate|].
           destruct n as [|n].
           ++ assert (k = 0%nat) as -> by lia.
              assert ((Z.of_nat a <? max_retries h')%Z = false) as ->
                by (apply Z.ltb_ge; lia).
              reflexivity.
           ++ destruct k as [|k]; [lia|].
              assert ((Z.of_nat a <? max_retries h')%Z = true) as ->
                by (apply Z.ltb_lt; lia).
              destruct Hcfg as (_ & _ & -> & _). reflexivity.
      * destruct Hr0 as (Hs0 & Hwhy). post_split.
        -- subst h'0. now apply same_config_cleared.
        -- apply Forall_app; auto.
        -- cbn. split.
           ++ subst h'0. destruct Hout as [Hcat _]. exact Hcat.
           ++ destruct Hwhy as [(He & Hin) | (-> & Hbig)].
              ** left. split; [exact He|].
                 rewrite raised_exceptions_app. apply in_or_app. now right.
              ** right. split; [reflexivity|]. split.
                 --- destruct Hout as [_ Hd]. rewrite discoveries_app, Hd, Hdisc0.
                     reflexivity.
                 --- destruct Hcfg as (_ & Hm & _). lia.
        -- exists 1%nat. split; [lia|]. split; [lia|]. split; [discriminate|].
           rewrite schedule_app, Hsched, Hs0. reflexivity.
    + post_split; auto.
      * destruct Hout as (He & Hin & Hcat). cbn. split; [exact Hcat|]. left. auto.
      * exists 1%nat. split; [lia|]. split; [lia|]. split; [discriminate|]. exact Hsched.
Qed.

Lemma connect_to_mcp_server_post (E : Env) h w :
  wp (connect_to_mcp_server E) h w (fun r h' _ t =>
    same_config h h' /\
    Forall (fun ev => is_connection_event ev = true) t /\
    connect_outcome h r h' t /\
    exists k,
      (k <= Z.to_nat (max_retries h))%nat /\
      ((1 <= max_retries h)%Z -> (1 <= k)%nat) /\
      (r = Ret false -> k = Z.to_nat (max_retries h)) /\
      schedule t = schedule_from (base_delay h) 1 k).
Proof.
  unfold connect_to_mcp_server, range_from_1. wp_steps.
  assert (Z.to_nat (max_retries h) = 0%nat \/
          Z.of_nat (1 + Z.to_nat (max_retries h)) = (max_retries h + 1)%Z) as Hlast by lia.
  wp_use (connect_attempts_post E (Z.to_nat (max_retries h)) 1 h w Hlast).
  destruct H as (Hcfg & Hconn & Hout & k & Hk & Hk1 & Hkn & Hsched).
  cbn [app]. post_split; auto. exists k. repeat split; auto. intros Hmax. apply Hk1. lia.
Qed.

Lemma schedule_from_flat_map (base : Q) (k : nat) :
  forall a : nat,
    schedule_from base (Z.of_nat a) (S k) =
    EvAttempt (Z.of_nat a) ::
    flat_map (fun i : Z =>
                [EvSleep (to_float (base * inject_Z (2 ^ (i - 2)))%Q); EvAttempt i])
             (map Z.of_nat (seq (S a) k)).
Proof.
  induction k as [|k IH]; intros a; [reflexivity|].
  change (schedule_from base (Z.of_nat a) (S (S k)))
    with (EvAttempt (Z.of_nat a) ::
          EvSleep (to_float (base * inject_Z (2 ^ (Z.of_nat a - 1)))%Q) ::
          schedule_from base (Z.of_nat a + 1) (S k)).
  replace (Z.of_nat a + 1)%Z with (Z.of_nat (S a)) by lia.
  rewrite IH. cbn [seq map flat_map app].
  replace (Z.of_nat (S a) - 2)%Z with (Z.of_nat a - 1)%Z by lia.
  reflexivity.
Qed.

Lemma schedule_from_1 (base : Q) (k : nat) :
  schedule_from base 1 k = expected_schedule base k.
Proof.
  destruct k as [|k]; [reflexivity|].
  exact (schedule_from_flat_map base k 1).
Qed.

Lemma to_float_in_range (q : Q) : (Qabs q <= float_max)%Q -> to_float q = Finite q.
Proof. intros Hq. unfold to_float. apply Qle_bool_iff in Hq. now rewrite Hq. Qed.

(** A base delay of at most one second, scaled by a power of two below
    [2^1024], is within the range of the floats. *)
Lemma scaled_delay_in_range (base : Q) (n : Z) :
  (Qabs base <= 1)%Q -> (0 <= n <= 1023)%Z ->
  (Qabs (base * inject_Z (2 ^ n)) <= float_max)%Q.
Proof.
  intros Hbase Hn. rewrite Qabs_Qmult.
  assert (0 <= inject_Z (2 ^ n))%Q as Hpos
    by (rewrite <- (Zle_Qle 0); apply Z.pow_nonneg; lia).
  rewrite (Qabs_pos _ Hpos).
  apply Qle_trans with (1 * inject_Z (2 ^ 1023))%Q.
  - apply Qmult_le_compat_nonneg.
    + split; [apply Qabs_nonneg | exact Hbase].
    + split; [exact Hpos|]. rewrite <- Zle_Qle. apply Z.pow_le_mono_r; lia.
  - apply Qle_bool_iff. vm_compute. reflexivity.
Qed.

Lemma expected_schedule_exact (base : Q) (k : nat) :
  (Qabs base <= 1)%Q -> (k <= 1025)%nat ->
  expected_schedule base k = exact_schedule base k.
Proof.
  intros Hbase Hk. destruct k as [|k]; [reflexivity|].
  unfold expected_schedule, exact_schedule. f_equal.
  rewrite !flat_map_concat_map. f_equal. apply map_ext_in.
  intros i Hi. apply in_map_iff in Hi as (j & <- & Hj). apply in_seq in Hj.
  rewrite to_float_in_range; [reflexivity|].
  apply scaled_delay_in_range; [exact Hbase | lia].
Qed.

(** C4. The attempts and sleeps of [connect_to_mcp_server] are, in order:
    attempt 1, then for each further attempt [i] that is made a sleep of
    [base_delay * 2^(i-2)], as a float, followed by attempt [i].  At least
    one attempt is made when [max_retries] is at least 1, at most
    [max_retries] are, and all of them when the method returns [False]; the
    schedule ends with an attempt, so nothing is slept after the last
    one.  With a base delay of at most a second, as the default 1.0, and at
    most 1025 attempts, the delays are exactly [base_delay * 2^(i-2)]
    seconds. *)
Theorem backoff_schedule (E : Env) (h : host) (w : world E) :
  let out := connect_to_mcp_server E h w in
  exists k : nat,
    (k <= Z.to_nat (max_retries h))%nat /\
    ((1 <= max_retries h)%Z -> (1 <= k)%nat) /\
    (result_of out = Ret false -> k = Z.to_nat (max_retries h)) /\
    schedule (trace_of out) = expected_schedule (base_delay h) k /\
    ((Qabs (base_delay h) <= 1)%Q -> (max_retries h <= 1025)%Z ->
     schedule (trace_of out) = exact_schedule (base_delay h) k).
Proof.
  cbv zeta. pose proof (connect_to_mcp_server_post E h w) as Hpost.
  unfold wp in Hpost. destruct Hpost as (_ & _ & _ & k & Hk & Hk1 & Hkn & Hsched).
  exists k. rewrite <- schedule_from_1. repeat split; auto.
  intros Hbase Hmax. rewrite Hsched, schedule_from_1.
  apply expected_schedule_exact; [exact Hbase | lia].
Qed.

Lemma backoff_schedule_witness :
  let out := connect_to_mcp_server (scripted unreachable) new_host start in
  exists k : nat,
    (k <= Z.to_nat (max_retries new_host))%nat /\
    ((1 <= max_retries new_host)%Z -> (1 <= k)%nat) /\
    (result_of out = Ret false -> k = Z.to_nat (max_retries new_host)) /\
    schedule (trace_of out) = expected_schedule (base_delay new_host) k /\
    ((Qabs (base_delay new_host) <= 1)%Q -> (max_retries new_host <= 1025)%Z ->
     schedule (trace_of out) = exact_schedule (base_delay new_host) k).
Proof. exact (backoff_schedule (scripted unreachable) new_host start). Defined.

(** With the defaults and a server that cannot be reached: three attempts,
    a sleep of 1 second before the second and of 2 seconds before the
    third, none after it. *)
Example default_delays_are_one_then_two_seconds :
  schedule (trace_of (connect_to_mcp_server (scripted unreachable) new_host start)) =
  [EvAttempt 1; EvSleep (Finite 1); EvAttempt 2; EvSleep (Finite 2); EvAttempt 3].
Proof. reflexivity. Qed.

Lemma ends_with_discovery_discoveries (t : list event) (h' : host) :
  ends_with_discovery t h' -> discoveries t <> [].
Proof.
  intros (pre & c & tools & -> & Hne & _). rewrite discoveries_app.
  destruct tools as [|tool tools]; [congruence|]. cbn.
  destruct (discoveries pre); discriminate.
Qed.

(** C3.  On a host whose catalog is empty, as it is at both places the
    host calls [connect_to_mcp_server] (at startup, and in the shell only
    when no tools are stored), and with [max_retries] at most 1025 (the
    default is 3): when no attempt ends with a successful listing, the
    outside raises nothing but [Exception]s and no backoff sleep is for
    ever, the method makes all [max_retries] attempts, returns [False], and
    the stored catalog is empty when it returns. *)
Theorem connect_exhaustion (E : Env) (h : host) (w : world E) :
  let out := connect_to_mcp_server E h w in
  available_tools h = [] ->
  (max_retries h <= 1025)%Z ->
  discoveries (trace_of out) = [] ->
  Forall (fun e => is_Exception e = true) (raised_exceptions (trace_of out)) ->
  ~ In (EvSleep (Infinity false)) (trace_of out) ->
  result_of out = Ret false /\
  schedule (trace_of out) = expected_schedule (base_delay h) (Z.to_nat (max_retries h)) /\
  available_tools (host_of out) = [].
Proof.
  cbv zeta. pose proof (connect_to_mcp_server_post E h w) as Hpost.
  unfold wp in Hpost. destruct Hpost as (_ & _ & Hout & k & Hk & _ & Hkn & Hsched).
  intros Hempty Hmax Hdisc Hraised _.
  destruct (result_of (connect_to_mcp_server E h w)) as [[|]|e];
    unfold connect_outcome, attempt_outcome in Hout.
  - now apply ends_with_discovery_discoveries in Hout.
  - destruct Hout as [Hcat _]. rewrite <- schedule_from_1, <- (Hkn eq_refl).
    repeat split; auto.
    destruct Hcat as [Hcat|Hcat]; congruence.
  - destruct Hout as (_ & [(He & Hin) | (_ & _ & Hbig)]); [|lia].
    rewrite List.Forall_forall in Hraised. apply Hraised in Hin. congruence.
Qed.

Lemma connect_exhaustion_witness :
  let out := connect_to_mcp_server (scripted unreachable) new_host start in
  result_of out = Ret false /\
  schedule (trace_of out) =
    expected_schedule (base_delay new_host) (Z.to_nat (max_retries new_host)) /\
  available_tools (host_of out) = [].
Proof.
  apply (connect_exhaustion (scripted unreachable) new_host start).
  - reflexivity.
  - vm_compute. discriminate.
  - reflexivity.
  - repeat constructor.
  - vm_compute. intuition discriminate.
Defined.

(** With [max_retries] beyond 1025 and a server that cannot be reached, the
    delay after attempt 1025 cannot be computed: the method raises
    [OverflowError] instead of returning. *)
Remark connect_overflows_beyond_1025_attempts :
  result_of (connect_to_mcp_server (scripted unreachable)
               (mkHost None [] false "http://localhost:8000/sse" 1026 1 false) start) =
  Raise delay_overflow.
Proof. vm_compute. reflexivity. Qed.

(** ** The catalog offered to the LLM *)






Lemma tool_calls_quiet (t : list event) :
  Forall (fun ev => is_tool_call ev = true) t -> quiet t.
Proof.
  intros Hall. eapply List.Forall_impl; [|exact Hall].
  intros ev Hev. now destruct ev.
Qed.


















(** In that run the host connects, lists one tool, and both completion
    requests of the user's question offer that tool. *)
Example offered_catalog_of_a_session :
  let t := snd (main (scripted (asking announced_quote_request final_answer))
                     (Some "sk-test") 3 start) in
  discoveries t = [(0%nat, [quote_tool])] /\
  offered_catalogs t = [Some [claude_tool quote_tool]; Some [claude_tool quote_tool]] /\
  map is_tool_call (List.filter (fun ev => negb (is_connection_event ev)) t) =
    [false; false; true; false; false].
Proof. cbv zeta. repeat split; reflexivity. Qed.

(** ** The tool round when the response begins with text *)

Lemma call_mcp_tool_with_session (E : Env) (tool_name : string) (arguments : json)
    (c : conn) h w :
  mcp_session h = Some c ->
  wp (call_mcp_tool E tool_name arguments) h w (fun r h' _ t =>
    (h' = h \/ h' = set_available_tools [] h) /\
    (exists o, t = [EvCallTool c tool_name arguments o]) /\
    (forall e, r = Raise e -> is_Exception e = false)).
Proof.
  intros Hs.
  unfold call_mcp_tool. wp_steps. rewrite Hs.
  wp_auto; post_split; cbn [app]; eauto; try discriminate.
  all: try (intros ? [= <-]; assumption).
Qed.

Lemma execute_tool_calls_with_session (E : Env) (c : conn) (blocks : list ContentBlock) :
  forall messages h w,
    mcp_session h = Some c ->
    wp (execute_tool_calls E blocks messages) h w (fun r h' _ t =>
      (h' = h \/ h' = set_available_tools [] h) /\
      match r with
      | Ret messages' =>
          exists outcomes texts,
            length outcomes = length (tool_uses blocks) /\
            length texts = length (tool_uses blocks) /\
            t = tool_call_events c (tool_uses blocks) outcomes /\
            messages' = messages ++ tool_result_messages (tool_uses blocks) texts
      | Raise e => is_Exception e = false
      end).
Proof.
  induction blocks as [|block rest IH]; intros messages h w Hs;
    cbn [execute_tool_calls tool_uses].
  - wp_steps. split; [now left|]. exists [], []. rewrite app_nil_r. auto.
  - destruct block as [text|id name input].
    + now apply IH.
    + wp_step. wp_use (call_mcp_tool_with_session E name input c h w Hs).
      destruct H as (Hh & [o ->] & Hr). destruct r as [tool_result|e].
      * assert (mcp_session h' = Some c) as Hs' by (destruct Hh as [->| ->]; exact Hs).
        wp_use (IH (messages ++ [tool_result_message id tool_result]) h' w' Hs').
        destruct H as (Hh' & Hout). split.
        -- destruct Hh as [->| ->], Hh' as [->| ->]; auto.
        -- destruct r as [messages'|e]; [|exact Hout].
           destruct Hout as (outcomes & texts & Hlo & Hlt & -> & ->).
           exists (o :: outcomes), (tool_result :: texts). cbn [length tool_uses].
           split; [now rewrite Hlo|]. split; [now rewrite Hlt|].
           split; [reflexivity|]. now rewrite <- app_assoc.
      * split; [exact Hh | now apply Hr].
Qed.

(** When the first response asks for tools, begins with a text block and a
    catalog was offered, every tool-use block is executed once, in order,
    with its name and arguments, and the second request carries, after the
    user message and the assistant message, one tool result per block
    tagged with the block's identifier. *)
Lemma tool_round_when_text_comes_first (E : Env) (user_message : string) (c : conn)
    (h : host) (w w1 : world E) (response : Response) (text : string)
    (rest : list ContentBlock) :
  mcp_session h = Some c ->
  available_tools h <> [] ->
  (forall rq, messages_create E rq w = (Ret response, w1)) ->
  stop_reason response = "tool_use" ->
  content response = TextBlock text :: rest ->
  let out := get_claude_response E user_message h w in
  (exists e, result_of out = Raise e /\ is_Exception e = false) \/
  exists rq1 rq2 r2 outcomes texts,
    length outcomes = length (tool_uses (content response)) /\
    length texts = length (tool_uses (content response)) /\
    trace_of out =
      EvMessagesCreate rq1 (Ret response) ::
      tool_call_events c (tool_uses (content response)) outcomes ++
      [EvMessagesCreate rq2 r2] /\
    rq_messages rq2 =
      [mkMessage "user" (MText user_message);
       mkMessage "assistant" (MBlocks (content response))] ++
      tool_result_messages (tool_uses (content response)) texts.
Proof.
  intros Hs Hne Hllm Hstop Hcontent. cbv zeta.
  assert (is_nil (format_tools_for_claude h) = false) as Hnil.
  { unfold format_tools_for_claude. destruct (available_tools h); [congruence | reflexivity]. }
  enough (wp (get_claude_response E user_message) h w (fun r _ _ t =>
    (exists e, r = Raise e /\ is_Exception e = false) \/
    exists rq1 rq2 r2 outcomes texts,
      length outcomes = length (tool_uses (content response)) /\
      length texts = length (tool_uses (content response)) /\
      t = EvMessagesCreate rq1 (Ret response) ::
          tool_call_events c (tool_uses (content response)) outcomes ++
          [EvMessagesCreate rq2 r2] /\
      rq_messages rq2 =
        [mkMessage "user" (MText user_message);
         mkMessage "assistant" (MBlocks (content response))] ++
        tool_result_messages (tool_uses (content response)) texts)) as Hwp
    by exact Hwp.
  unfold get_claude_response, handle_tool_use. wp_steps.
  rewrite Hllm in Hcall. injection Hcall as <- <-.
  wp_steps. unfold first_text at 1 2. rewrite Hcontent, Hstop, Hnil.
  cbn [block_text String.eqb Ascii.eqb Bool.eqb andb negb]. wp_steps.
  wp_use (execute_tool_calls_with_session E c (TextBlock text :: rest)
            ([mkMessage "user" (MText user_message)] ++
             [mkMessage "assistant" (MBlocks (TextBlock text :: rest))]) h w1 Hs).
  destruct H as (_ & Hout). destruct r as [messages'|e].
  - destruct Hout as (outcomes & texts & Hlo & Hlt & -> & ->).
    wp_auto; right; do 2 eexists; eexists _, outcomes, texts;
      (split; [exact Hlo|]); (split; [exact Hlt|]);
      cbn [app]; rewrite ?app_nil_r; split; reflexivity.
  - rewrite (not_Exception_not_Timeout e Hout), Hout. wp_steps.
    rewrite (not_Exception_not_Timeout e Hout), Hout. wp_steps.
    left. eauto.
Qed.

End HostProps.

(** ** More on the tool server *)

Module ServerCoverage.

Import Server Scenario.

(** Without a keyword argument named [function] the call enters the
    body; none of the three tools passes one. *)
Lemma make_api_request_enters (N : Net) (key : option string) (function : string)
    (kwargs : gmap string string) (w : world N) :
  kwargs !! "function" = None ->
  make_api_request N key function kwargs w = make_api_request_body N key function kwargs w.
Proof. intros Hkw. unfold make_api_request. now rewrite Hkw. Qed.

Ltac no_function_keyword :=
  first [ apply lookup_singleton_ne; discriminate
        | rewrite lookup_insert_ne by discriminate;
          apply lookup_singleton_ne; discriminate ].

Ltac enter_body := rewrite ?make_api_request_enters by no_function_keyword.

Lemma truthy_key (key : option string) :
  truthy_str key = true ->
  exists k, key = Some k /\ String.eqb k EmptyString = false.
Proof.
  destruct key as [k|]; [|discriminate]. cbn.
  destruct (String.eqb k EmptyString) eqn:Hk; [discriminate|].
  intros _. exists k. split; [reflexivity | exact Hk].
Qed.

(** With a key configured, the body of [make_api_request] hands on what the
    upstream API answered, after exactly one request. *)
Lemma make_api_request_json (N : Net) (key : option string) (function : string)
    (kwargs : gmap string string) (w w' : world N) (data : gmap string value) :
  truthy_str key = true ->
  (forall rq, requests_get N rq w = (HttpJson data, w')) ->
  exists rq, make_api_request_body N key function kwargs w = (Ret data, w', [rq]).
Proof.
  intros Hkey Hget. apply truthy_key in Hkey as (k & -> & Hk).
  unfold make_api_request_body. rewrite Hk, Hget. eauto.
Qed.

Lemma make_api_request_raise (N : Net) (key : option string) (function : string)
    (kwargs : gmap string string) (w w' : world N) (e : exn) :
  truthy_str key = true ->
  (forall rq, requests_get N rq w = (HttpRaise e, w')) ->
  exists rq,
    make_api_request_body N key function kwargs w =
    (if is_RequestException e
     then Ret {[ "error" := VStr ("API request failed: " +:+ exn_msg e) ]}
     else Raise e, w', [rq]).
Proof.
  intros Hkey Hget. apply truthy_key in Hkey as (k & -> & Hk).
  unfold make_api_request_body. rewrite Hk, Hget.
  destruct (is_RequestException e); eauto.
Qed.

(** X1. With the market-data key unset or empty, the symbol search and the
    crypto lookup return the "not configured" error text and make no
    outbound request, whatever they are asked. *)
Theorem search_and_crypto_not_configured (N : Net) (key : option string)
    (input : string) (w : world N) :
  truthy_str key = false ->
  search_stocks N key input w =
    (Ret "Error: Alpha Vantage API key not configured", w, []) /\
  get_crypto_price N key input w =
    (Ret "Error: Alpha Vantage API key not configured", w, []).
Proof.
  intros Hkey. unfold search_stocks, get_crypto_price.
  rewrite !(ServerProps.make_api_request_unconfigured N key _ _ w Hkey)
    by no_function_keyword.
  rewrite !lookup_singleton_eq. split; reflexivity.
Qed.

Lemma search_and_crypto_not_configured_witness :
  truthy_str (Some EmptyString) = false /\
  search_stocks (fixed_net ∅) (Some EmptyString) "apple" 0%nat =
    (Ret "Error: Alpha Vantage API key not configured", 0%nat, []) /\
  get_crypto_price (fixed_net ∅) (Some EmptyString) "btc" 0%nat =
    (Ret "Error: Alpha Vantage API key not configured", 0%nat, []).
Proof.
  split; [reflexivity|].
  split; apply (search_and_crypto_not_configured (fixed_net ∅) (Some EmptyString));
    reflexivity.
Defined.

(** X2. With a key configured and no keyword argument named [function],
    [make_api_request] makes exactly one request, to the Alpha Vantage URL;
    its parameters carry every keyword argument, the function, and the API
    key unless a keyword argument is named [apikey]; the world it leaves is
    the one that request left.  A keyword argument named [function] makes
    the call raise [TypeError] with no request made, key or no key. *)
Theorem make_api_request_one_request (N : Net) (key : string) (function : string)
    (kwargs : gmap string string) (w : world N) :
  String.eqb key EmptyString = false ->
  (kwargs !! "function" = None ->
   exists rq,
     snd (make_api_request N (Some key) function kwargs w) = [rq] /\
     snd (fst (make_api_request N (Some key) function kwargs w)) =
       snd (requests_get N rq w) /\
     req_url rq = ALPHA_VANTAGE_BASE_URL /\
     (forall k v, kwargs !! k = Some v -> req_params rq !! k = Some v) /\
     req_params rq !! "function" = Some function /\
     (kwargs !! "apikey" = None -> req_params rq !! "apikey" = Some key)) /\
  (forall v any_key,
     kwargs !! "function" = Some v ->
     exists e,
       make_api_request N any_key function kwargs w = (Raise e, w, []) /\
       exn_name e = "TypeError").
Proof.
  intros Hk. split.
  - intros Hkw. rewrite make_api_request_enters by exact Hkw.
    unfold make_api_request_body. rewrite Hk.
    set (rq := mkRequest _ _).
    exists rq. destruct (requests_get N rq w) as [[data|e] w'] eqn:Hget.
    all: split; [try destruct (is_RequestException e); reflexivity|].
    all: split; [try destruct (is_RequestException e); reflexivity|].
    all: split; [reflexivity|]; subst rq; cbn [req_params].
    all: split; [intros k v Hkv; apply lookup_union_Some_l; exact Hkv|].
    all: split; [|intros Hnone]; rewrite lookup_union_r by assumption.
    all: try (rewrite lookup_insert_eq; reflexivity).
    all: rewrite lookup_insert_ne by discriminate; apply lookup_singleton_eq.
  - intros v any_key Hkw. unfold make_api_request. rewrite Hkw. eauto.
Qed.

Lemma make_api_request_one_request_witness :
  (({[ "symbol" := "AAPL" ]} : gmap string string) !! "function" = None ->
   exists rq,
     snd (make_api_request (fixed_net ∅) (Some "demo") "GLOBAL_QUOTE"
            {[ "symbol" := "AAPL" ]} 0%nat) = [rq] /\
     snd (fst (make_api_request (fixed_net ∅) (Some "demo") "GLOBAL_QUOTE"
                 {[ "symbol" := "AAPL" ]} 0%nat)) =
       snd (requests_get (fixed_net ∅) rq 0%nat) /\
     req_url rq = ALPHA_VANTAGE_BASE_URL /\
     (forall k v, ({[ "symbol" := "AAPL" ]} : gmap string string) !! k = Some v ->
                  req_params rq !! k = Some v) /\
     req_params rq !! "function" = Some "GLOBAL_QUOTE" /\
     (({[ "symbol" := "AAPL" ]} : gmap string string) !! "apikey" = None ->
      req_params rq !! "apikey" = Some "demo")) /\
  (forall v any_key,
     ({[ "symbol" := "AAPL" ]} : gmap string string) !! "function" = Some v ->
     exists e,
       make_api_request (fixed_net ∅) any_key "GLOBAL_QUOTE"
         {[ "symbol" := "AAPL" ]} 0%nat = (Raise e, 0%nat, []) /\
       exn_name e = "TypeError").
Proof.
  apply (make_api_request_one_request (fixed_net ∅) "demo" "GLOBAL_QUOTE"
           {[ "symbol" := "AAPL" ]} 0%nat).
  reflexivity.
Defined.

(** A keyword argument named [function]: the call raises before the key is
    looked at and before any request. *)
Example function_keyword_is_rejected :
  make_api_request (fixed_net ∅) (Some "demo") "GLOBAL_QUOTE"
    {[ "function" := "OVERVIEW" ]} 0%nat =
  (Raise (TypeError "make_api_request() got multiple values for argument 'function'"),
   0%nat, []).
Proof. reflexivity. Qed.

Lemma contains_here (needle rest : string) : contains needle (needle +:+ rest) = true.
Proof. apply contains_true_iff. exists EmptyString, rest. reflexivity. Qed.

Lemma contains_after (needle before hay : string) :
  contains needle hay = true -> contains needle (before +:+ hay) = true.
Proof.
  rewrite !contains_true_iff. intros (a & b & ->).
  exists (before +:+ a), b. now rewrite append_assoc.
Qed.

Lemma contains_before (needle hay after : string) :
  contains needle hay = true -> contains needle (hay +:+ after) = true.
Proof.
  rewrite !contains_true_iff. intros (a & b & ->).
  exists a, (b +:+ after). now rewrite !append_assoc.
Qed.

(** The requests a tool reports are those of its one call of
    [make_api_request]. *)
Lemma get_stock_quote_requests (N : Net) (key : option string) (symbol : string)
    (w : world N) :
  snd (get_stock_quote N key symbol w) =
  snd (make_api_request N key "GLOBAL_QUOTE" {[ "symbol" := upper (unicode N) symbol ]} w).
Proof.
  unfold get_stock_quote.
  destruct (make_api_request _ _ _ _ _) as [[[data|e] w'] reqs]; [|reflexivity].
  repeat case_match; reflexivity.
Qed.

Lemma search_stocks_requests (N : Net) (key : option string) (query : string)
    (w : world N) :
  snd (search_stocks N key query w) =
  snd (make_api_request N key "SYMBOL_SEARCH" {[ "keywords" := query ]} w).
Proof.
  unfold search_stocks.
  destruct (make_api_request _ _ _ _ _) as [[[data|e] w'] reqs]; [|reflexivity].
  repeat case_match; reflexivity.
Qed.

Lemma get_crypto_price_requests (N : Net) (key : option string) (symbol : string)
    (w : world N) :
  snd (get_crypto_price N key symbol w) =
  snd (make_api_request N key "CURRENCY_EXCHANGE_RATE"
         {[ "from_currency" := upper (unicode N) symbol; "to_currency" := "USD" ]} w).
Proof.
  unfold get_crypto_price.
  destruct (make_api_request _ _ _ _ _) as [[[data|e] w'] reqs]; [|reflexivity].
  repeat case_match; reflexivity.
Qed.

Lemma make_api_request_count (N : Net) (key : option string) (function : string)
    (kwargs : gmap string string) (w : world N) :
  length (snd (make_api_request_body N key function kwargs w)) =
  if truthy_str key then 1%nat else 0%nat.
Proof.
  unfold make_api_request_body. destruct key as [k|]; [|reflexivity]. cbn [truthy_str].
  destruct (String.eqb k EmptyString); [reflexivity|]. cbn [negb].
  destruct (requests_get N _ w) as [[data|e] w']; [reflexivity|].
  destruct (is_RequestException e); reflexivity.
Qed.

(** X3. Each tool makes exactly one outbound request per call when the key
    is configured and none when it is not: there is no retry and no second
    lookup, whatever the upstream API answers. *)
Theorem tools_make_one_request_when_configured (N : Net) (key : option string)
    (input : string) (w : world N) :
  let expected := if truthy_str key then 1%nat else 0%nat in
  length (snd (get_stock_quote N key input w)) = expected /\
  length (snd (search_stocks N key input w)) = expected /\
  length (snd (get_crypto_price N key input w)) = expected.
Proof.
  cbv zeta.
  rewrite get_stock_quote_requests, search_stocks_requests, get_crypto_price_requests.
  enter_body. rewrite !make_api_request_count. auto.
Qed.

(** X4. When the request fails with a [RequestException] (no connection,
    HTTP error status, timeout), each tool returns the text
    "Error: API request failed: " followed by the exception's message; it
    does not raise. *)
Theorem network_failure_is_reported (N : Net) (key : option string) (input : string)
    (w w' : world N) (e : exn) :
  truthy_str key = true ->
  is_RequestException e = true ->
  (forall rq, requests_get N rq w = (HttpRaise e, w')) ->
  fst (fst (get_stock_quote N key input w)) = Ret ("Error: API request failed: " +:+ exn_msg e) /\
  fst (fst (search_stocks N key input w)) = Ret ("Error: API request failed: " +:+ exn_msg e) /\
  fst (fst (get_crypto_price N key input w)) = Ret ("Error: API request failed: " +:+ exn_msg e).
Proof.
  intros Hkey He Hget. unfold get_stock_quote, search_stocks, get_crypto_price.
  enter_body. repeat split.
  all: enter_body.
  all: match goal with
       | |- context [make_api_request_body _ _ ?f ?kw _] =>
           destruct (make_api_request_raise N key f kw w w' e Hkey Hget) as [rq ->]
       end.
  all: rewrite He, lookup_singleton_eq; reflexivity.
Qed.

Lemma network_failure_is_reported_witness :
  fst (fst (get_stock_quote (failing_net ConnectionError) (Some "demo") "aapl" 0%nat)) =
    Ret ("Error: API request failed: " +:+ exn_msg ConnectionError) /\
  fst (fst (search_stocks (failing_net ConnectionError) (Some "demo") "aapl" 0%nat)) =
    Ret ("Error: API request failed: " +:+ exn_msg ConnectionError) /\
  fst (fst (get_crypto_price (failing_net ConnectionError) (Some "demo") "aapl" 0%nat)) =
    Ret ("Error: API request failed: " +:+ exn_msg ConnectionError).
Proof.
  apply (network_failure_is_reported (failing_net ConnectionError) (Some "demo") "aapl"
           0%nat 1%nat ConnectionError).
  - reflexivity.
  - reflexivity.
  - intros rq. reflexivity.
Defined.

(** X5. An exception of the request that is not a [RequestException] is
    not caught: each tool raises it to its caller. *)
Theorem other_exception_is_raised (N : Net) (key : option string) (input : string)
    (w w' : world N) (e : exn) :
  truthy_str key = true ->
  is_RequestException e = false ->
  (forall rq, requests_get N rq w = (HttpRaise e, w')) ->
  fst (fst (get_stock_quote N key input w)) = Raise e /\
  fst (fst (search_stocks N key input w)) = Raise e /\
  fst (fst (get_crypto_price N key input w)) = Raise e.
Proof.
  intros Hkey He Hget. unfold get_stock_quote, search_stocks, get_crypto_price.
  enter_body. repeat split.
  all: enter_body.
  all: match goal with
       | |- context [make_api_request_body _ _ ?f ?kw _] =>
           destruct (make_api_request_raise N key f kw w w' e Hkey Hget) as [rq ->]
       end.
  all: rewrite He; reflexivity.
Qed.

Lemma other_exception_is_raised_witness :
  fst (fst (get_stock_quote (failing_net KeyboardInterrupt) (Some "demo") "aapl" 0%nat)) =
    Raise KeyboardInterrupt /\
  fst (fst (search_stocks (failing_net KeyboardInterrupt) (Some "demo") "aapl" 0%nat)) =
    Raise KeyboardInterrupt /\
  fst (fst (get_crypto_price (failing_net KeyboardInterrupt) (Some "demo") "aapl" 0%nat)) =
    Raise KeyboardInterrupt.
Proof.
  apply (other_exception_is_raised (failing_net KeyboardInterrupt) (Some "demo") "aapl"
           0%nat 1%nat KeyboardInterrupt).
  - reflexivity.
  - reflexivity.
  - intros rq. reflexivity.
Defined.

Lemma make_api_request_requests (N : Net) (key : option string) (function : string)
    (kwargs : gmap string string) (w : world N) (rq : request) :
  In rq (snd (make_api_request_body N key function kwargs w)) ->
  exists k,
    key = Some k /\
    rq = mkRequest ALPHA_VANTAGE_BASE_URL
           (kwargs ∪ {[ "function" := function; "apikey" := k ]}).
Proof.
  unfold make_api_request_body. destruct key as [k|]; [|intros []].
  destruct (String.eqb k EmptyString); [intros []|].
  destruct (requests_get N _ w) as [[data|e] w']; [|destruct (is_RequestException e)].
  all: intros [<-|[]]; eauto.
Qed.

(** X6. The quote and crypto lookups see a symbol only through its
    upper-case form: two symbols with the same upper-case form give the
    same result, and the request that goes out carries that form (for the
    crypto lookup, with USD as the target currency). *)
Theorem symbol_case_is_ignored (N : Net) (key : option string) (symbol other : string)
    (w : world N) :
  upper (unicode N) other = upper (unicode N) symbol ->
  get_stock_quote N key other w = get_stock_quote N key symbol w /\
  get_crypto_price N key other w = get_crypto_price N key symbol w /\
  (forall rq, In rq (snd (get_stock_quote N key symbol w)) ->
     req_params rq !! "symbol" = Some (upper (unicode N) symbol)) /\
  (forall rq, In rq (snd (get_crypto_price N key symbol w)) ->
     req_params rq !! "from_currency" = Some (upper (unicode N) symbol) /\
     req_params rq !! "to_currency" = Some "USD").
Proof.
  intros Hsame. split; [|split; [|split]].
  - unfold get_stock_quote. cbv zeta. now rewrite Hsame.
  - unfold get_crypto_price. cbv zeta. now rewrite Hsame.
  - intros rq Hin. rewrite get_stock_quote_requests in Hin.
    rewrite make_api_request_enters in Hin by no_function_keyword.
    apply make_api_request_requests in Hin as (k & _ & ->). cbn [req_params].
    apply lookup_union_Some_l, lookup_singleton_eq.
  - intros rq Hin. rewrite get_crypto_price_requests in Hin.
    rewrite make_api_request_enters in Hin by no_function_keyword.
    apply make_api_request_requests in Hin as (k & _ & ->). cbn [req_params].
    split; apply lookup_union_Some_l.
    + apply lookup_insert_eq.
    + rewrite lookup_insert_ne by discriminate. apply lookup_singleton_eq.
Qed.

Lemma symbol_case_is_ignored_witness :
  get_stock_quote (fixed_net ∅) (Some "demo") "Aapl" 0%nat =
    get_stock_quote (fixed_net ∅) (Some "demo") "aapl" 0%nat /\
  get_crypto_price (fixed_net ∅) (Some "demo") "Aapl" 0%nat =
    get_crypto_price (fixed_net ∅) (Some "demo") "aapl" 0%nat /\
  (forall rq, In rq (snd (get_stock_quote (fixed_net ∅) (Some "demo") "aapl" 0%nat)) ->
     req_params rq !! "symbol" = Some "AAPL") /\
  (forall rq, In rq (snd (get_crypto_price (fixed_net ∅) (Some "demo") "aapl" 0%nat)) ->
     req_params rq !! "from_currency" = Some "AAPL" /\
     req_params rq !! "to_currency" = Some "USD").
Proof.
  apply (symbol_case_is_ignored (fixed_net ∅) (Some "demo") "aapl" "Aapl" 0%nat).
  reflexivity.
Defined.

(** X7. When the upstream answer carries an "error" entry, each tool
    returns "Error: " followed by that entry, whatever else the answer
    holds. *)
Theorem upstream_error_is_reported (N : Net) (key : option string) (input : string)
    (w w' : world N) (data : gmap string value) (message : string) :
  truthy_str key = true ->
  (forall rq, requests_get N rq w = (HttpJson data, w')) ->
  data !! "error" = Some (VStr message) ->
  fst (fst (get_stock_quote N key input w)) = Ret ("Error: " +:+ message) /\
  fst (fst (search_stocks N key input w)) = Ret ("Error: " +:+ message) /\
  fst (fst (get_crypto_price N key input w)) = Ret ("Error: " +:+ message).
Proof.
  intros Hkey Hget Herr. unfold get_stock_quote, search_stocks, get_crypto_price.
  repeat split.
  all: enter_body.
  all: match goal with
       | |- context [make_api_request_body _ _ ?f ?kw _] =>
           destruct (make_api_request_json N key f kw w w' data Hkey Hget) as [rq ->]
       end.
  all: rewrite Herr; reflexivity.
Qed.

Lemma upstream_error_is_reported_witness :
  fst (fst (get_stock_quote
              (fixed_net {[ "error" := VStr "rate limit"; "Global Quote" := VDict apple_quote ]})
              (Some "demo") "aapl" 0%nat)) = Ret ("Error: " +:+ "rate limit") /\
  fst (fst (search_stocks
              (fixed_net {[ "error" := VStr "rate limit"; "Global Quote" := VDict apple_quote ]})
              (Some "demo") "aapl" 0%nat)) = Ret ("Error: " +:+ "rate limit") /\
  fst (fst (get_crypto_price
              (fixed_net {[ "error" := VStr "rate limit"; "Global Quote" := VDict apple_quote ]})
              (Some "demo") "aapl" 0%nat)) = Ret ("Error: " +:+ "rate limit").
Proof.
  apply (upstream_error_is_reported
           (fixed_net {[ "error" := VStr "rate limit"; "Global Quote" := VDict apple_quote ]})
           (Some "demo") "aapl" 0%nat 1%nat
           {[ "error" := VStr "rate limit"; "Global Quote" := VDict apple_quote ]}
           "rate limit").
  - reflexivity.
  - intros rq. reflexivity.
  - reflexivity.
Defined.

(** X8. When the upstream answer has no "error" entry but an
    "Error Message" entry, the quote and crypto lookups return the
    invalid-symbol text, which names the symbol in upper case. *)
Theorem invalid_symbol_is_reported (N : Net) (key : option string) (symbol : string)
    (w w' : world N) (data : gmap string value) :
  truthy_str key = true ->
  (forall rq, requests_get N rq w = (HttpJson data, w')) ->
  data !! "error" = None ->
  is_Some (data !! "Error Message") ->
  fst (fst (get_stock_quote N key symbol w)) =
    Ret ("Error: Invalid symbol '" +:+ upper (unicode N) symbol +:+ "' or API limit reached") /\
  fst (fst (get_crypto_price N key symbol w)) =
    Ret ("Error: Invalid crypto symbol '" +:+ upper (unicode N) symbol +:+ "' or API limit reached").
Proof.
  intros Hkey Hget Herr [v Hmsg]. unfold get_stock_quote, get_crypto_price. cbv zeta.
  repeat split.
  all: enter_body.
  all: match goal with
       | |- context [make_api_request_body _ _ ?f ?kw _] =>
           destruct (make_api_request_json N key f kw w w' data Hkey Hget) as [rq ->]
       end.
  all: rewrite Herr, Hmsg; reflexivity.
Qed.

Lemma invalid_symbol_is_reported_witness :
  fst (fst (get_stock_quote (fixed_net {[ "Error Message" := VStr "Invalid API call." ]})
              (Some "demo") "zzzz" 0%nat)) =
    Ret ("Error: Invalid symbol '" +:+ "ZZZZ" +:+ "' or API limit reached") /\
  fst (fst (get_crypto_price (fixed_net {[ "Error Message" := VStr "Invalid API call." ]})
              (Some "demo") "zzzz" 0%nat)) =
    Ret ("Error: Invalid crypto symbol '" +:+ "ZZZZ" +:+ "' or API limit reached").
Proof.
  apply (invalid_symbol_is_reported
           (fixed_net {[ "Error Message" := VStr "Invalid API call." ]})
           (Some "demo") "zzzz" 0%nat 1%nat {[ "Error Message" := VStr "Invalid API call." ]}).
  - reflexivity.
  - intros rq. reflexivity.
  - reflexivity.
  - eexists. reflexivity.
Defined.

(** X9. When the upstream answer has neither error entry and its payload
    entry ("Global Quote", "Realtime Currency Exchange Rate") is missing or
    empty, the lookups return the no-data text for the upper-case symbol. *)
Theorem empty_payload_is_no_data (N : Net) (key : option string) (symbol : string)
    (w w' : world N) (data : gmap string value) :
  truthy_str key = true ->
  (forall rq, requests_get N rq w = (HttpJson data, w')) ->
  data !! "error" = None ->
  data !! "Error Message" = None ->
  (data !! "Global Quote" = None \/ data !! "Global Quote" = Some (VDict ∅) ->
   fst (fst (get_stock_quote N key symbol w)) =
     Ret ("No data found for symbol: " +:+ upper (unicode N) symbol)) /\
  (data !! "Realtime Currency Exchange Rate" = None \/
   data !! "Realtime Currency Exchange Rate" = Some (VDict ∅) ->
   fst (fst (get_crypto_price N key symbol w)) =
     Ret ("No data found for crypto: " +:+ upper (unicode N) symbol)).
Proof.
  intros Hkey Hget Herr Hmsg. unfold get_stock_quote, get_crypto_price. cbv zeta.
  split.
  all: enter_body.
  all: match goal with
       | |- context [make_api_request_body _ _ ?f ?kw _] =>
           destruct (make_api_request_json N key f kw w w' data Hkey Hget) as [rq ->]
       end.
  all: rewrite Herr, Hmsg; intros [-> | ->]; reflexivity.
Qed.

Lemma empty_payload_is_no_data_witness :
  (({[ "Global Quote" := VDict ∅ ]} : gmap string value) !! "Global Quote" = None \/
   ({[ "Global Quote" := VDict ∅ ]} : gmap string value) !! "Global Quote" = Some (VDict ∅) ->
   fst (fst (get_stock_quote (fixed_net {[ "Global Quote" := VDict ∅ ]})
               (Some "demo") "aapl" 0%nat)) =
     Ret ("No data found for symbol: " +:+ "AAPL")) /\
  (({[ "Global Quote" := VDict ∅ ]} : gmap string value)
     !! "Realtime Currency Exchange Rate" = None \/
   ({[ "Global Quote" := VDict ∅ ]} : gmap string value)
     !! "Realtime Currency Exchange Rate" = Some (VDict ∅) ->
   fst (fst (get_crypto_price (fixed_net {[ "Global Quote" := VDict ∅ ]})
               (Some "demo") "aapl" 0%nat)) =
     Ret ("No data found for crypto: " +:+ "AAPL")).
Proof.
  apply (empty_payload_is_no_data (fixed_net {[ "Global Quote" := VDict ∅ ]})
           (Some "demo") "aapl" 0%nat 1%nat {[ "Global Quote" := VDict ∅ ]}).
  - reflexivity.
  - intros rq. reflexivity.
  - reflexivity.
  - reflexivity.
Defined.

(** X10. A quote that is present is shown: the text names the upper-case
    symbol, and shows the upstream price after "Current Price: $", or N/A
    when the quote has no price field. *)
Theorem quote_shows_symbol_and_price (N : Net) (key : option string) (symbol : string)
    (w w' : world N) (data : gmap string value) (quote : gmap string string) :
  truthy_str key = true ->
  (forall rq, requests_get N rq w = (HttpJson data, w')) ->
  data !! "error" = None ->
  data !! "Error Message" = None ->
  data !! "Global Quote" = Some (VDict quote) ->
  quote <> ∅ ->
  exists text,
    fst (fst (get_stock_quote N key symbol w)) = Ret text /\
    contains ("Stock Quote for " +:+ upper (unicode N) symbol +:+ ":") text = true /\
    (forall price, quote !! "05. price" = Some price ->
       contains ("Current Price: $" +:+ price) text = true) /\
    (quote !! "05. price" = None -> contains "Current Price: $N/A" text = true).
Proof.
  intros Hkey Hget Herr Hmsg Hquote Hne.
  exists (format_quote (upper (unicode N) symbol) quote). split; [|split; [|split]].
  - unfold get_stock_quote. cbv zeta.
    enter_body.
    destruct (make_api_request_json N key "GLOBAL_QUOTE" {[ "symbol" := upper (unicode N) symbol ]}
                w w' data Hkey Hget) as [rq ->].
    rewrite Herr, Hmsg, Hquote. cbn [default from_option id truthy].
    rewrite bool_decide_eq_false_2 by exact Hne. reflexivity.
  - apply contains_true_iff. exists EmptyString. eexists.
    unfold format_quote. rewrite !append_assoc. reflexivity.
  - intros price Hprice. apply contains_true_iff.
    exists ("Stock Quote for " +:+ upper (unicode N) symbol +:+ ":
• "). eexists.
    unfold format_quote, get_or_NA. rewrite Hprice. cbn [default from_option id].
    rewrite !append_assoc. reflexivity.
  - intros Hprice. apply contains_true_iff.
    exists ("Stock Quote for " +:+ upper (unicode N) symbol +:+ ":
• "). eexists.
    unfold format_quote, get_or_NA. rewrite Hprice. cbn [default from_option id].
    rewrite !append_assoc. reflexivity.
Qed.

Lemma quote_shows_symbol_and_price_witness :
  exists text,
    fst (fst (get_stock_quote (fixed_net {[ "Global Quote" := VDict apple_quote ]})
                (Some "demo") "aapl" 0%nat)) = Ret text /\
    contains ("Stock Quote for " +:+ "AAPL" +:+ ":") text = true /\
    (forall price, apple_quote !! "05. price" = Some price ->
       contains ("Current Price: $" +:+ price) text = true) /\
    (apple_quote !! "05. price" = None -> contains "Current Price: $N/A" text = true).
Proof.
  apply (quote_shows_symbol_and_price (fixed_net {[ "Global Quote" := VDict apple_quote ]})
           (Some "demo") "aapl" 0%nat 1%nat {[ "Global Quote" := VDict apple_quote ]}
           apple_quote).
  - reflexivity.
  - intros rq. reflexivity.
  - reflexivity.
  - reflexivity.
  - reflexivity.
  - intros Hempty. apply (f_equal (fun q => q !! "05. price")) in Hempty. discriminate.
Defined.

(** X11. When the upstream answer has no "error" entry and its list of
    best matches is missing or empty, the search returns the no-match text
    for the query as it was given. *)
Theorem no_matches_is_reported (N : Net) (key : option string) (query : string)
    (w w' : world N) (data : gmap string value) :
  truthy_str key = true ->
  (forall rq, requests_get N rq w = (HttpJson data, w')) ->
  data !! "error" = None ->
  data !! "bestMatches" = None \/ data !! "bestMatches" = Some (VList []) ->
  fst (fst (search_stocks N key query w)) = Ret ("No stocks found matching: " +:+ query).
Proof.
  intros Hkey Hget Herr Hbest. unfold search_stocks.
  enter_body.
  destruct (make_api_request_json N key "SYMBOL_SEARCH" {[ "keywords" := query ]}
              w w' data Hkey Hget) as [rq ->].
  rewrite Herr. destruct Hbest as [-> | ->]; reflexivity.
Qed.

Lemma no_matches_is_reported_witness :
  fst (fst (search_stocks (fixed_net {[ "bestMatches" := VList [] ]}) (Some "demo")
              "Zzyzx Corp" 0%nat)) =
  Ret ("No stocks found matching: " +:+ "Zzyzx Corp").
Proof.
  apply (no_matches_is_reported (fixed_net {[ "bestMatches" := VList [] ]}) (Some "demo")
           "Zzyzx Corp" 0%nat 1%nat {[ "bestMatches" := VList [] ]}).
  - reflexivity.
  - intros rq. reflexivity.
  - reflexivity.
  - right. reflexivity.
Defined.

Lemma numbered_lines_contains (ms : list (gmap string string)) :
  forall (k i : nat) (m : gmap string string),
    ms !! i = Some m ->
    contains (format_match (k + i) m) (numbered_lines k ms) = true.
Proof.
  induction ms as [|m0 ms IH]; intros k i m Hi; [discriminate|].
  destruct i as [|i]; cbn [numbered_lines].
  - injection Hi as ->. rewrite Nat.add_0_r. apply contains_here.
  - apply contains_after. replace (k + S i)%nat with (S k + i)%nat by lia.
    apply IH. exact Hi.
Qed.

(** X12. Each of the first five upstream matches has its line in the
    search result: the match at position [i] (from 0) appears as
    "i+1. symbol - name", with N/A for a field the match lacks. *)
Theorem search_lists_each_of_first_five (N : Net) (key : option string) (query : string)
    (w w' : world N) (data : gmap string value) (ms : list (gmap string string))
    (i : nat) (m : gmap string string) :
  truthy_str key = true ->
  (forall rq, requests_get N rq w = (HttpJson data, w')) ->
  data !! "error" = None ->
  data !! "bestMatches" = Some (VList ms) ->
  (i < 5)%nat ->
  ms !! i = Some m ->
  exists text,
    fst (fst (search_stocks N key query w)) = Ret text /\
    contains (str_of_nat (S i) +:+ ". " +:+ default "N/A" (m !! "1. symbol") +:+ " - " +:+
              default "N/A" (m !! "2. name")) text = true.
Proof.
  intros Hkey Hget Herr Hbest Hi Hm.
  exists (search_header query +:+ numbered_lines 1 (firstn 5 ms)). split.
  - unfold search_stocks.
    enter_body.
    destruct (make_api_request_json N key "SYMBOL_SEARCH" {[ "keywords" := query ]}
                w w' data Hkey Hget) as [rq ->].
    rewrite Herr, Hbest. destruct ms as [|m0 ms]; [discriminate|].
    cbn [default from_option id truthy negb fst].
    now rewrite ServerProps.format_matches_numbered.
  - apply contains_after.
    assert (contains (format_match (1 + i) m) (numbered_lines 1 (firstn 5 ms)) = true) as Hline.
    { apply numbered_lines_contains. rewrite lookup_take_lt by exact Hi. exact Hm. }
    apply contains_true_iff in Hline as (a & b & Hline). apply contains_true_iff.
    rewrite Hline. exists a. eexists.
    unfold format_match, get_or_NA. cbn [Nat.add]. rewrite !append_assoc. reflexivity.
Qed.

Lemma search_lists_each_of_first_five_witness :
  exists text,
    fst (fst (search_stocks (fixed_net {[ "bestMatches" := VList six_matches ]})
                (Some "demo") "apple" 0%nat)) = Ret text /\
    contains (str_of_nat 5 +:+ ". " +:+
              default "N/A" (company "AGPL" "Apple Green Holding Inc" !! "1. symbol") +:+
              " - " +:+
              default "N/A" (company "AGPL" "Apple Green Holding Inc" !! "2. name")) text = true.
Proof.
  apply (search_lists_each_of_first_five
           (fixed_net {[ "bestMatches" := VList six_matches ]}) (Some "demo") "apple"
           0%nat 1%nat {[ "bestMatches" := VList six_matches ]} six_matches 4%nat
           (company "AGPL" "Apple Green Holding Inc")).
  - reflexivity.
  - intros rq. reflexivity.
  - reflexivity.
  - reflexivity.
  - lia.
  - reflexivity.
Defined.

End ServerCoverage.

(** ** More on the host *)

Module HostCoverage.

Import Host Scenario HostProps.

(** *** Cleanup and discovery *)

(** X13. [cleanup_connections] always leaves the host without session and
    without exit stack, keeps the stored catalog, and raises nothing that
    is an [Exception]; it closes nothing when there is no stack, so a
    second cleanup right after the first does nothing at all. *)
Theorem cleanup_connections_releases (E : Env) (h : host) (w : world E) :
  let out := cleanup_connections E h w in
  mcp_session (host_of out) = None /\
  exit_stack (host_of out) = false /\
  available_tools (host_of out) = available_tools h /\
  (forall e, result_of out = Raise e -> is_Exception e = false) /\
  (exit_stack h = false -> out = (Ret tt, host_of out, w, [])) /\
  (forall w2, cleanup_connections E (host_of out) w2 = (Ret tt, host_of out, w2, [])).
Proof.
  cbv zeta. pose proof (cleanup_connections_post E h w) as Hpost. unfold wp in Hpost.
  destruct Hpost as (Hh & _ & _ & _ & Hr).
  rewrite Hh. repeat split.
  - intros e He. now apply Hr.
  - intros Hstack.
    unfold cleanup_connections, try_finally, try_except, bind, get, ret.
    rewrite Hstack. reflexivity.
Qed.

(** X14. [discover_tools] returns [True] exactly when the listing on the
    held session returns a non-empty list; it then stores that list and
    changes nothing else.  It never raises an [Exception]. *)
Theorem discover_tools_succeeds_iff (E : Env) (h : host) (w : world E) :
  let out := discover_tools E h w in
  (result_of out = Ret true <->
   exists c tools,
     mcp_session h = Some c /\ fst (list_tools E c w) = Ret tools /\ tools <> []) /\
  (result_of out = Ret true ->
   exists c tools,
     mcp_session h = Some c /\ fst (list_tools E c w) = Ret tools /\
     host_of out = set_available_tools tools h /\
     trace_of out = [EvListTools c (Ret tools)]) /\
  (forall e, result_of out = Raise e -> is_Exception e = false).
Proof.
  cbv zeta. unfold discover_tools, try_except, bind, get, call, modify, raise, ret.
  destruct (mcp_session h) as [c|] eqn:Hs.
  - assert (forall r w', list_tools E c w = (r, w') ->
            (forall tool tools, r <> Ret (tool :: tools)) ->
            ~ exists c' tools,
                Some c = Some c' /\ fst (list_tools E c' w) = Ret tools /\ tools <> [])
      as Hno.
    { intros r w' Hl Hr (c' & tools & [= <-] & Ht & Hne). rewrite Hl in Ht. cbn in Ht.
      destruct tools as [|tool tools]; [congruence|]. now apply (Hr tool tools). }
    destruct (list_tools E c w) as [[[|tool tools]|e] w'] eqn:Hl; cbn.
    + repeat split; try discriminate. intros Hex. exfalso.
      apply (Hno _ _ eq_refl); [discriminate | exact Hex].
    + repeat split; try discriminate.
      * intros _. exists c, (tool :: tools). rewrite Hl. repeat split. discriminate.
      * intros _. exists c, (tool :: tools). rewrite Hl. repeat split.
    + destruct (is_TimeoutError e) eqn:Ht; [|destruct (is_Exception e) eqn:He]; cbn.
      * repeat split; try discriminate. intros Hex. exfalso.
        apply (Hno _ _ eq_refl); [discriminate | exact Hex].
      * repeat split; try discriminate. intros Hex. exfalso.
        apply (Hno _ _ eq_refl); [discriminate | exact Hex].
      * repeat split; try discriminate.
        -- intros Hex. exfalso. apply (Hno _ _ eq_refl); [discriminate | exact Hex].
        -- intros e0 [= <-]. exact He.
  - cbn. repeat split; try discriminate. intros (c & tools & Hc & _). discriminate.
Qed.

(** *** Tool invocation *)

(** X15. When the tool call returns, [call_mcp_tool] returns the text of
    the first content item if that is a text item, and the fixed
    no-content text, naming the tool, if the result has no content or an
    empty content list.  The host is unchanged, and the server was asked
    once, with exactly the name and arguments given. *)
Theorem call_mcp_tool_on_result (E : Env) (h : host) (w w' : world E) (c : conn)
    (tool_name : string) (arguments : json) (result : CallToolResult) :
  mcp_session h = Some c ->
  call_tool E c tool_name arguments w = (Ret result, w') ->
  (forall text rest,
     result_content result = Some (TextContent text :: rest) ->
     call_mcp_tool E tool_name arguments h w =
       (Ret text, h, w', [EvCallTool c tool_name arguments (Ret result)])) /\
  (result_content result = None \/ result_content result = Some [] ->
   call_mcp_tool E tool_name arguments h w =
     (Ret ("Tool " +:+ tool_name +:+ " executed but returned no content"), h, w',
      [EvCallTool c tool_name arguments (Ret result)])).
Proof.
  intros Hs Hc. unfold call_mcp_tool, try_except, bind, get, call, lift, ret.
  rewrite Hs, Hc. split.
  - intros text rest ->. reflexivity.
  - intros [-> | ->]; reflexivity.
Qed.

Lemma call_mcp_tool_on_result_witness :
  (forall text rest,
     result_content (mkCallToolResult (Some [TextContent "AAPL: $150.00"])) =
       Some (TextContent text :: rest) ->
     call_mcp_tool (scripted (answering final_answer final_answer)) "get_stock_quote" aapl
       connected_host start =
       (Ret text, connected_host, start,
        [EvCallTool 0%nat "get_stock_quote" aapl
           (Ret (mkCallToolResult (Some [TextContent "AAPL: $150.00"])))])) /\
  (result_content (mkCallToolResult (Some [TextContent "AAPL: $150.00"])) = None \/
   result_content (mkCallToolResult (Some [TextContent "AAPL: $150.00"])) = Some [] ->
   call_mcp_tool (scripted (answering final_answer final_answer)) "get_stock_quote" aapl
     connected_host start =
     (Ret ("Tool " +:+ "get_stock_quote" +:+ " executed but returned no content"),
      connected_host, start,
      [EvCallTool 0%nat "get_stock_quote" aapl
         (Ret (mkCallToolResult (Some [TextContent "AAPL: $150.00"])))])).
Proof.
  apply (call_mcp_tool_on_result (scripted (answering final_answer final_answer))
           connected_host start start 0%nat "get_stock_quote" aapl
           (mkCallToolResult (Some [TextContent "AAPL: $150.00"]))); reflexivity.
Defined.

(** X16. Without a session, [call_mcp_tool] does not reach the server: it
    returns the generic error text for [AttributeError] and leaves the
    host, its catalog included, as it was. *)
Theorem call_mcp_tool_without_session (E : Env) (h : host) (w : world E)
    (tool_name : string) (arguments : json) :
  mcp_session h = None ->
  call_mcp_tool E tool_name arguments h w =
    (Ret ("Error calling tool " +:+ tool_name +:+ ": AttributeError"), h, w, []).
Proof.
  intros Hs. unfold call_mcp_tool, try_except, bind, get, raise.
  rewrite Hs. reflexivity.
Qed.

Lemma call_mcp_tool_without_session_witness :
  call_mcp_tool (scripted unreachable) "get_stock_quote" aapl new_host start =
    (Ret ("Error calling tool " +:+ "get_stock_quote" +:+ ": AttributeError"),
     new_host, start, []).
Proof.
  apply (call_mcp_tool_without_session (scripted unreachable) new_host start
           "get_stock_quote" aapl).
  reflexivity.
Defined.

(** X17. An exception of the tool call that is not an [Exception] (a
    keyboard interrupt, a cancellation) is not turned into a string:
    [call_mcp_tool] raises it, with the host unchanged. *)
Theorem call_mcp_tool_lets_interrupts_through (E : Env) (h : host) (w w' : world E)
    (c : conn) (tool_name : string) (arguments : json) (e : exn) :
  mcp_session h = Some c ->
  call_tool E c tool_name arguments w = (Raise e, w') ->
  is_Exception e = false ->
  call_mcp_tool E tool_name arguments h w =
    (Raise e, h, w', [EvCallTool c tool_name arguments (Raise e)]).
Proof.
  intros Hs Hc He. unfold call_mcp_tool, try_except, bind, get, call.
  rewrite Hs, Hc, (not_Exception_not_Timeout e He), He. reflexivity.
Qed.

Lemma call_mcp_tool_lets_interrupts_through_witness :
  call_mcp_tool (scripted interrupted) "get_stock_quote" aapl connected_host start =
    (Raise KeyboardInterrupt, connected_host, start,
     [EvCallTool 0%nat "get_stock_quote" aapl (Raise KeyboardInterrupt)]).
Proof.
  apply (call_mcp_tool_lets_interrupts_through (scripted interrupted) connected_host
           start start 0%nat "get_stock_quote" aapl KeyboardInterrupt); reflexivity.
Defined.

(** *** Connecting *)

Lemma guarded_attempt_holds_stack (E : Env) (attempt : Z) h w :
  wp (guarded_attempt E attempt) h w (fun r h' _ _ =>
    r = Ret true -> exit_stack h' = true).
Proof.
  unfold guarded_attempt, connection_attempt, cleanup_connections, discover_tools.
  wp_auto; intros; try discriminate; reflexivity.
Qed.

(** The loop: a success leaves the exit stack in place; a failure after at
    least one attempt leaves neither session nor exit stack. *)
Lemma connect_attempts_resources (E : Env) (attempts : list Z) :
  forall h w,
    wp (connect_attempts E attempts) h w (fun r h' _ _ =>
      (r = Ret true -> exit_stack h' = true) /\
      (r = Ret false ->
       (attempts = [] /\ h' = h) \/
       (mcp_session h' = None /\ exit_stack h' = false))).
Proof.
  induction attempts as [|attempt rest IH]; intros h w; cbn [connect_attempts].
  - wp_steps. split; [discriminate | auto].
  - wp_step. wp_use guarded_attempt_holds_stack. destruct r as [[|]|e].
    + wp_steps. split; [auto | discriminate].
    + wp_step. wp_use after_failed_attempt_post. destruct H0 as (Hh & _).
      destruct r as [[]|e].
      * wp_use IH. destruct H0 as [Htrue Hfalse]. split; [exact Htrue|].
        intros Hr. right. destruct (Hfalse Hr) as [[_ ->]|Hreleased].
        -- subst h'0. split; reflexivity.
        -- exact Hreleased.
      * split; discriminate.
    + split; discriminate.
Qed.

(** X18. When [connect_to_mcp_server] returns [True], the host holds an
    exit stack and a session, the last thing it did was a listing on that
    session, and it stores the non-empty list that listing returned. *)
Theorem connect_success_holds_session (E : Env) (h : host) (w : world E) :
  let out := connect_to_mcp_server E h w in
  result_of out = Ret true ->
  exit_stack (host_of out) = true /\
  exists pre c tools,
    trace_of out = pre ++ [EvListTools c (Ret tools)] /\
    tools <> [] /\
    available_tools (host_of out) = tools /\
    mcp_session (host_of out) = Some c.
Proof.
  cbv zeta. intros Hr. split.
  - pose proof (connect_attempts_resources E (range_from_1 (max_retries h)) h w) as Hres.
    unfold wp in Hres. destruct Hres as [Htrue _].
    unfold connect_to_mcp_server, bind, get in *.
    destruct (connect_attempts E _ h w) as [[[r h'] w'] t]. cbn in *. now apply Htrue.
  - pose proof (connect_to_mcp_server_post E h w) as Hpost. unfold wp in Hpost.
    destruct Hpost as (_ & _ & Hout & _). rewrite Hr in Hout. exact Hout.
Qed.

Lemma connect_success_holds_session_witness :
  let out := connect_to_mcp_server (scripted third_time_lucky) new_host start in
  result_of out = Ret true /\
  exit_stack (host_of out) = true /\
  exists pre c tools,
    trace_of out = pre ++ [EvListTools c (Ret tools)] /\
    tools <> [] /\
    available_tools (host_of out) = tools /\
    mcp_session (host_of out) = Some c.
Proof.
  cbv zeta. split; [reflexivity|].
  apply (connect_success_holds_session (scripted third_time_lucky) new_host start).
  reflexivity.
Defined.



(** *** Conversation *)

(** X21. A response that begins with a text block and does not stop for
    tool use, or that arrives when the catalog is empty, is answered
    directly: the turn returns that text unchanged after the one
    completion request, invokes no tool and leaves the host as it was. *)
Theorem direct_answer_is_returned (E : Env) (user_message : string) (h : host)
    (w w' : world E) (response : Response) (text : string) (rest : list ContentBlock) :
  (forall rq, messages_create E rq w = (Ret response, w')) ->
  content response = TextBlock text :: rest ->
  String.eqb (stop_reason response) "tool_use" = false \/ available_tools h = [] ->
  exists rq,
    get_claude_response E user_message h w =
      (Ret text, h, w', [EvMessagesCreate rq (Ret response)]).
Proof.
  intros Hllm Hcontent Hdirect. eexists.
  unfold get_claude_response, try_except, bind, get, call, lift.
  rewrite Hllm. unfold first_text. rewrite Hcontent. cbn [block_text].
  assert (String.eqb (stop_reason response) "tool_use" &&
          negb (is_nil (format_tools_for_claude h)) = false) as ->.
  { destruct Hdirect as [-> | Hempty]; [reflexivity|].
    unfold format_tools_for_claude. rewrite Hempty. apply andb_false_r. }
  reflexivity.
Qed.

Lemma direct_answer_is_returned_witness :
  exists rq,
    get_claude_response (scripted (answering final_answer final_answer))
      "What is a stock?" connected_host start =
      (Ret "Apple is at $150.00", connected_host, mkCounters 0 0 1 0,
       [EvMessagesCreate rq (Ret final_answer)]).
Proof.
  apply (direct_answer_is_returned (scripted (answering final_answer final_answer))
           "What is a stock?" connected_host start (mkCounters 0 0 1 0) final_answer
           "Apple is at $150.00" []).
  - intros rq. reflexivity.
  - reflexivity.
  - left. reflexivity.
Defined.

(** X22. When the completion request fails with an [Exception], the turn
    returns a text that depends on the failure alone: the timeout text for
    a timeout, the authentication text when the class name contains
    "authentication" in any case, and otherwise the generic text naming the
    class.  No tool is invoked and the host is unchanged. *)
Theorem completion_failure_is_reported (E : Env) (user_message : string) (h : host)
    (w w' : world E) (e : exn) :
  (forall rq, messages_create E rq w = (Raise e, w')) ->
  is_Exception e = true ->
  exists rq,
    get_claude_response E user_message h w =
      (Ret (if is_TimeoutError e then "Claude request timed out after 30 seconds"
            else if contains "authentication" (lower (unicode E) (exn_name e))
            then "Authentication error with Claude API. Please check your ANTHROPIC_API_KEY."
            else "Error communicating with Claude: " +:+ exn_name e),
       h, w', [EvMessagesCreate rq (Raise e)]).
Proof.
  intros Hllm He. eexists.
  unfold get_claude_response, try_except, bind, get, call.
  rewrite Hllm, He.
  destruct (is_TimeoutError e); [reflexivity|].
  destruct (contains "authentication" (lower (unicode E) (exn_name e))); reflexivity.
Qed.

Lemma completion_failure_is_reported_witness :
  exists rq,
    get_claude_response (scripted interrupted) "What is a stock?" connected_host start =
      (Ret (if is_TimeoutError AuthenticationError
            then "Claude request timed out after 30 seconds"
            else if contains "authentication"
                         (lower (unicode (scripted interrupted))
                                (exn_name AuthenticationError))
            then "Authentication error with Claude API. Please check your ANTHROPIC_API_KEY."
            else "Error communicating with Claude: " +:+ exn_name AuthenticationError),
       connected_host, mkCounters 0 0 1 0, [EvMessagesCreate rq (Raise AuthenticationError)]).
Proof.
  apply (completion_failure_is_reported (scripted interrupted) "What is a stock?"
           connected_host start (mkCounters 0 0 1 0) AuthenticationError).
  - intros rq. reflexivity.
  - reflexivity.
Defined.

(** X23. A user turn never raises an [Exception] to the shell, and it
    never adds to the stored catalog: the host it leaves is the host it
    started from, or that host with the catalog cleared. *)
Theorem user_turn_never_raises_exception (E : Env) (user_message : string) (h : host)
    (w : world E) :
  let out := get_claude_response E user_message h w in
  (forall e, result_of out = Raise e -> is_Exception e = false) /\
  (host_of out = h \/ host_of out = set_available_tools [] h).
Proof.
  cbv zeta. pose proof (get_claude_response_post E user_message h w) as Hpost.
  unfold wp in Hpost. destruct Hpost as (Hh & Hr & _). split; assumption.
Qed.





(** *** The shell *)

(** X25. When the line read, stripped by [str.strip] and lower-cased by
    [str.lower], is quit, exit or q, the shell ends after that one read:
    nothing is sent to the LLM or the server, and the host is unchanged. *)
Theorem quit_ends_the_shell (E : Env) (h : host) (w w' : world E) (line : string)
    (fuel : nat) :
  input E "You: " w = (Ret line, w') ->
  str_in (lower (unicode E) (strip (unicode E) line)) ["quit"; "exit"; "q"] = true ->
  run_interactive E (S fuel) h w = (Ret (Some tt), h, w', [EvInput "You: " (Ret line)]).
Proof.
  intros Hin Hquit. cbn [run_interactive].
  unfold bind, interactive_turn, try_except, bind, call, ret.
  rewrite Hin, Hquit. reflexivity.
Qed.

Lemma quit_ends_the_shell_witness :
  run_interactive (scripted third_time_lucky) 3 connected_host start =
    (Ret (Some tt), connected_host, mkCounters 0 0 0 1, [EvInput "You: " (Ret "  QUIT ")]).
Proof.
  apply (quit_ends_the_shell (scripted third_time_lucky) connected_host start
           (mkCounters 0 0 0 1) "  QUIT " 2); reflexivity.
Defined.

(** X26. A line that [str.strip] leaves empty is skipped: the pass ends
    with the loop continuing, nothing sent and the host unchanged.  End of
    input or a keyboard interrupt at the prompt ends the loop. *)
Theorem blank_line_and_end_of_input (E : Env) (h : host) (w w' : world E)
    (r : res string) :
  input E "You: " w = (r, w') ->
  match r with
  | Ret line => strip (unicode E) line = EmptyString
  | Raise e => is_EOFError e = true \/ is_KeyboardInterrupt e = true
  end ->
  interactive_turn E h w =
    (Ret (match r with Ret _ => Continue | Raise _ => Break end), h, w',
     [EvInput "You: " r]).
Proof.
  intros Hin Hr. unfold interactive_turn, try_except, bind, call, ret. rewrite Hin.
  destruct r as [line|e].
  - rewrite Hr. reflexivity.
  - destruct Hr as [He|He].
    + destruct (is_KeyboardInterrupt e); [reflexivity|]. rewrite He. reflexivity.
    + rewrite He. reflexivity.
Qed.

Lemma blank_line_and_end_of_input_witness :
  interactive_turn (scripted silent) connected_host start =
    (Ret Continue, connected_host, mkCounters 0 0 0 1, [EvInput "You: " (Ret "   ")]) /\
  interactive_turn (scripted interrupted) connected_host start =
    (Ret Break, connected_host, mkCounters 0 0 0 1,
     [EvInput "You: " (Raise KeyboardInterrupt)]).
Proof.
  split.
  - apply (blank_line_and_end_of_input (scripted silent) connected_host start
             (mkCounters 0 0 0 1) (Ret "   ")); reflexivity.
  - apply (blank_line_and_end_of_input (scripted interrupted) connected_host start
             (mkCounters 0 0 0 1) (Raise KeyboardInterrupt)).
    + reflexivity.
    + right. reflexivity.
Defined.

(** X27. A pass of the shell loop raises no [Exception], no keyboard
    interrupt and no end-of-input error: those are caught in the pass, and
    the loop goes on or ends in an orderly way. *)
Theorem shell_pass_catches_exceptions (E : Env) (h : host) (w : world E) (e : exn) :
  result_of (interactive_turn E h w) = Raise e ->
  is_Exception e = false /\ is_KeyboardInterrupt e = false /\ is_EOFError e = false.
Proof.
  unfold interactive_turn, try_except.
  match goal with
  | |- context [let '(_, _) := ?body in _] => destruct body as [[[r h1] w1] t1]
  end.
  destruct r as [c|e']; [discriminate|].
  destruct (is_KeyboardInterrupt e') eqn:Hk; [discriminate|].
  destruct (is_EOFError e') eqn:Hf; [discriminate|].
  destruct (is_Exception e') eqn:He; [discriminate|].
  intros [= <-]. auto.
Qed.

Lemma shell_pass_catches_exceptions_witness :
  is_Exception CancelledError = false /\ is_KeyboardInterrupt CancelledError = false /\
  is_EOFError CancelledError = false.
Proof.
  apply (shell_pass_catches_exceptions (scripted cancelled) connected_host start CancelledError).
  reflexivity.
Defined.

Lemma turn_shape_quiet (h : host) (t : list event) (final : res Response -> Prop) :
  turn_shape h t final -> quiet t.
Proof.
  intros (rq1 & r1 & calls & _ & Hcalls & Ht).
  apply tool_calls_quiet in Hcalls.
  destruct Ht as [->|(rq2 & r2 & _ & -> & _)]; constructor; try reflexivity; [exact Hcalls|].
  apply Forall_app. split; [exact Hcalls | repeat constructor].
Qed.

(** X28. Once the user has chosen to go on without tools, a pass of the
    shell keeps that choice and does not touch the connection: no
    reconnect is attempted, nothing is opened, closed or listed. *)
Theorem proceeding_without_tools_is_sticky (E : Env) (h : host) (w : world E) :
  proceed_without_tools h = true ->
  let out := interactive_turn E h w in
  proceed_without_tools (host_of out) = true /\
  Forall (fun ev => is_connection_event ev = false) (trace_of out).
Proof.
  intros Hproceed. cbv zeta.
  enough (wp (interactive_turn E) h w (fun _ h' _ t =>
            proceed_without_tools h' = true /\ quiet t)) as Hwp by exact Hwp.
  assert (forall e (h1 : host) (w1 : world E) (t1 : list event),
    proceed_without_tools h1 = true -> quiet t1 ->
    wp (if is_KeyboardInterrupt e then ret Break
        else if is_EOFError e then ret Break
        else if is_Exception e then ret Continue
        else raise e) h1 w1
       (fun (_ : res loop_control) h2 (_ : world E) t2 =>
          proceed_without_tools h2 = true /\ quiet (t1 ++ t2))) as Hhandler.
  { intros e h1 w1 t1 Hp Hq.
    destruct (is_KeyboardInterrupt e); [|destruct (is_EOFError e); [|destruct (is_Exception e)]];
      wp_steps; rewrite app_nil_r; auto. }
  assert (forall r, quiet [EvInput "You: " r]) as Hin by (intros r; repeat constructor).
  unfold interactive_turn, ensure_tools. wp_steps.
  destruct r as [line|e]; [|now apply Hhandler].
  destruct (str_in (lower (unicode E) (strip (unicode E) line)) ["quit"; "exit"; "q"]).
  { wp_steps. rewrite app_nil_r. auto. }
  destruct (String.eqb (strip (unicode E) line) EmptyString).
  { wp_steps. rewrite app_nil_r. auto. }
  wp_steps. rewrite Hproceed, andb_false_r. wp_steps.
  wp_use get_claude_response_post. destruct H as (Hh & _ & Hshape).
  apply turn_shape_quiet in Hshape.
  assert (proceed_without_tools h' = true) as Hp' by (destruct Hh as [->| ->]; exact Hproceed).
  assert (quiet (EvInput "You: " (Ret line) :: t)) as Hq
    by (constructor; [reflexivity | exact Hshape]).
  destruct r as [answer|e].
  - wp_steps. cbn [app]. rewrite app_nil_r. auto.
  - apply Hhandler; [exact Hp'|]. cbn [app]. exact Hq.
Qed.

Lemma proceeding_without_tools_is_sticky_witness :
  let out := interactive_turn (scripted (asking final_answer final_answer))
               without_tools_host start in
  proceed_without_tools (host_of out) = true /\
  Forall (fun ev => is_connection_event ev = false) (trace_of out).
Proof.
  apply (proceeding_without_tools_is_sticky (scripted (asking final_answer final_answer))
           without_tools_host start).
  reflexivity.
Defined.


(** *** The entry point *)

(** X30. The shell is entered only after a successful discovery: in a run
    of [main()] in which no listing returned tools, the host touches the
    connection only: it reads no input and sends nothing to the LLM. *)
Theorem shell_needs_a_discovery (E : Env) (key : option string) (fuel : nat)
    (w : world E) :
  discoveries (snd (main E key fuel w)) = [] ->
  Forall (fun ev => is_connection_event ev = true) (snd (main E key fuel w)).
Proof.
  unfold main. destruct (init E key w) as [[h0|e] w0].
  2: { destruct (is_KeyboardInterrupt e || is_Exception e); constructor. }
  unfold try_except, bind.
  pose proof (connect_to_mcp_server_post E h0 w0) as Hpost. unfold wp in Hpost.
  destruct (connect_to_mcp_server E h0 w0) as [[[r h1] w1] t1].
  cbn [result_of host_of world_of trace_of fst snd] in Hpost.
  destruct Hpost as (_ & Hconn & Hout & _).
  pose proof (fun h w => cleanup_connections_post E h w) as Hclean.
  unfold cleanup.
  destruct r as [[|]|e]; unfold attempt_outcome in Hout.
  - apply ends_with_discovery_discoveries in Hout.
    destruct (run_interactive E fuel h1 w1) as [[[r2 h2] w2] t2].
    assert (forall t3, discoveries ((t1 ++ t2) ++ t3) <> []) as Hsome.
    { intros t3. rewrite <- app_assoc, discoveries_app.
      destruct (discoveries t1); [congruence | discriminate]. }
    destruct r2 as [[[]|]|e2].
    + specialize (Hclean h2 w2). unfold wp in Hclean.
      destruct (cleanup_connections E h2 w2) as [[[r3 h3] w3] t3].
      cbn [snd]. intros Hd. now apply Hsome in Hd.
    + cbn [snd]. intros Hd. specialize (Hsome []). rewrite app_nil_r in Hsome. congruence.
    + destruct (is_KeyboardInterrupt e2 || is_Exception e2); unfold ret, raise.
      * specialize (Hclean h2 w2). unfold wp in Hclean.
        destruct (cleanup_connections E h2 w2) as [[[r3 h3] w3] t3].
        cbn [snd]. intros Hd. rewrite app_nil_r in Hd.
        specialize (Hsome t3). congruence.
      * specialize (Hclean h2 w2). unfold wp in Hclean.
        destruct (cleanup_connections E h2 w2) as [[[r3 h3] w3] t3].
        cbn [snd]. intros Hd. rewrite app_nil_r in Hd.
        specialize (Hsome t3). congruence.
  - unfold ret. specialize (Hclean h1 w1). unfold wp in Hclean.
    destruct (cleanup_connections E h1 w1) as [[[r3 h3] w3] t3].
    cbn [result_of host_of world_of trace_of fst snd] in Hclean |- *.
    destruct Hclean as (_ & Hconn3 & _). intros _. rewrite app_nil_r.
    apply Forall_app. split; assumption.
  - destruct (is_KeyboardInterrupt e || is_Exception e); unfold ret, raise.
    all: specialize (Hclean h1 w1); unfold wp in Hclean.
    all: destruct (cleanup_connections E h1 w1) as [[[r3 h3] w3] t3].
    all: cbn [result_of host_of world_of trace_of fst snd] in Hclean |- *.
    all: destruct Hclean as (_ & Hconn3 & _); intros _; rewrite app_nil_r.
    all: apply Forall_app; split; assumption.
Qed.

Lemma shell_needs_a_discovery_witness :
  Forall (fun ev => is_connection_event ev = true)
         (snd (main (scripted unreachable) (Some "sk-test") 3 start)).
Proof.
  apply (shell_needs_a_discovery (scripted unreachable) (Some "sk-test") 3 start).
  reflexivity.
Defined.

(** X20. Whenever [main()] ends after a host was constructed, whether it
    returns or raises, the host is left without session and without exit
    stack: the cleanup of the [finally] clause has run. *)
Theorem main_releases_resources (E : Env) (key : option string) (fuel : nat)
    (w : world E) (h' : host) :
  snd (fst (fst (main E key fuel w))) = Some h' ->
  fst (fst (fst (main E key fuel w))) <> Ret None ->
  mcp_session h' = None /\ exit_stack h' = false.
Proof.
  unfold main. destruct (init E key w) as [[h0|e] w0].
  2: { destruct (is_KeyboardInterrupt e || is_Exception e); discriminate. }
  destruct (try_except _ _ h0 w0) as [[[r1 h1] w1] t1].
  pose proof (cleanup_connections_post E h1 w1) as Hclean. unfold wp in Hclean.
  unfold cleanup.
  destruct (cleanup_connections E h1 w1) as [[[r2 h2] w2] t2].
  cbn [result_of host_of world_of trace_of fst snd] in Hclean.
  destruct Hclean as (-> & _).
  destruct r1 as [[[]|]|e]; cbn [fst snd].
  - intros [= <-] _. split; reflexivity.
  - intros _ Hrunning. now contradiction Hrunning.
  - intros [= <-] _. split; reflexivity.
Qed.

Lemma main_releases_resources_witness :
  snd (fst (fst (main (scripted (asking announced_quote_request final_answer))
                      (Some "sk-test") 3 start))) =
    Some (mkHost None [quote_tool] false "http://localhost:8000/sse" 3 1 false) /\
  mcp_session (mkHost None [quote_tool] false "http://localhost:8000/sse" 3 1 false) = None /\
  exit_stack (mkHost None [quote_tool] false "http://localhost:8000/sse" 3 1 false) = false.
Proof.
  split; [reflexivity|].
  apply (main_releases_resources (scripted (asking announced_quote_request final_answer))
           (Some "sk-test") 3 start).
  - reflexivity.
  - discriminate.
Defined.

End HostCoverage.
